(* ===== verification/_CoqProject ===== *)
-Q . S2P
Prelude.v
JsValue.v
Coercion.v
Styles.v
Transport.v
Render.v
RenderSafety.v
Debounce.v
HomeScreen.v
Reachability.v
EndToEnd.v
Robustness.v
Semantics.v
FlowSpec.v
