(* ===== verification/Prelude.v ===== *)
(** * A verification development of the weather_app mobile screen

    The repository is a React Native screen that looks up weather data from
    weatherapi.com.  It has two source files:

    - [src/api/weather.js] (the Transport): two URL builders
      [forecastEndpoint] and [locationEndpoint] (template literals embedding
      the API key and the raw city name), the async wrapper [apiCall] that
      issues one GET through axios and collapses every failure to [null],
      and the two exports [fetchWeatherForecast] and [fetchLocation].
    - [src/screens/HomeScreens.js] (the Resolution Flow and its render):
      the component [HomeScreens] with three pieces of React state
      ([showSearch], [locations], [weather]), the handlers [handleLocation]
      (a candidate is pressed), [handleSearch] (behind lodash's
      [debounce(handleSearch, 1200)]), [fetchMyweatherData] (run once by
      [useEffect] on mount), the search button's [onPress], the promise
      continuations that write state, and the JSX that renders the state.

    The parts interact through calls and callbacks: a handler sends a
    request through the Transport, the request stays in flight until the
    network settles it, and its continuation ([.then], or the code after
    [await]) writes React state, which the JSX renders.  The debounce timer
    is the only other source of events.

    ** Files (in dependency order)

    - [Prelude] (this file): the [result] type of JavaScript evaluation that
      may throw, with stdpp's monad notation; the [weather] hint databases;
      the tactics [destruct_binds] and [bind_ok]; list lemmas shared by the
      components.
    - [JsValue]: JavaScript values as the code sees them: strings as lists
      of UTF-16 code units, [jsval] for the JSON axios returns, property
      access [get] (TypeError on [undefined]/[null]), optional chains
      [chain] with their short-circuit, and [to_str] (ToString).
    - [Coercion]: the conversions the code triggers on network data,
      after ECMAScript: ToPrimitive and ToString ([to_string], which
      throws on an object with an own [toString] field), the computed read
      [weatherImages[text]] ([get_computed]), StringToNumber and the
      comparison [x > 0] ([gt_zero]).
    - [Styles]: the style sheet of lines 183-260 ([styles], built by
      [StyleSheet.create]), the reads [styles.x], and React Native's
      [StyleSheet.flatten] (a library function, modelled by its documented
      behaviour) that merges a style array.
    - [Transport]: [src/api/weather.js] line by line ([forecastEndpoint],
      [locationEndpoint], [apiCall_options], [apiCall_settle],
      [fetchWeatherForecast], [fetchLocation]); the class [WeatherApi], the
      contract the screen is proved against, with its instance
      [weather_api]; [QueryString], how the provider reads a URL, the
      abstract specification of the endpoints.
    - [Render]: the React state [ui] (lines 11-13) and [render], the JSX of
      lines 54-181 as an evaluation to a [view] that may throw, with the
      two style arrays that depend on state (lines 68 and 167); React's
      mount of the view ([reconcile]: a [<Text>] child that is an object
      throws) and the screen on display ([display]: render, then mount).
    - [RenderSafety]: [renders] and [displays], value-level reference
      predicates for the states the JSX renders and the screen displays,
      and the theorem that [display] completes exactly on the latter.
    - [Debounce]: lodash's trailing-edge debounce (a library, modelled from
      the spec): one pending deadline with the last arguments.
    - [HomeScreen]: the flow as a state machine.  [state] is the React
      state plus the runtime around it (mount flag, clock, debouncer,
      requests in flight with their continuation, log of sent requests,
      console, uncaught errors); [event] is the mount effect, the three
      gestures, the timer, or the network settling a request; one
      Definition per handler and continuation; [step] is executable,
      [run] folds it, [reachable] is its closure from [init].
    - [Reachability]: the invariants of the runtime state by induction on
      [reachable], the bounds of a step, progress of the timer,
      quiescence, and the bound on the environment's steps.
    - [EndToEnd]: the screen instantiated with the Transport of
      [weather.js], from a gesture down to the query the provider reads.
    - [Robustness]: the invariant of the React state under a provider that
      answers in its documented shape, and the theorem that the screen
      then stays on display.
    - [Semantics]: the console trace of a selection.
    - [FlowSpec]: the machine of spec section 4.2 on the display surface
      (panel, candidates, forecast), written from the spec (closing the
      panel clears the candidates, section 3), and the refinement
      theorems, which locate the one gesture where the code departs.

    ** What the theorems show

    - The flow (HomeScreen): selecting a candidate clears and closes and
      sends one forecast request (spec P3); a forecast response replaces
      the forecast (P5); a burst of keystrokes sends one search, for the
      last text, 1200 ms after the last keystroke (P1); the timer sends a
      search only for texts of more than two code units (P2); the last
      response to arrive wins (P4), for searches and for forecasts alike
      (a late startup forecast replaces a selected city); the search
      button keeps the candidates;
      startup asks for Islamabad over ['7'] days.
    - Failures: a failed forecast or search stores [null], and the next
      render throws, taking the screen off display (the spec keeps the
      previous value); [apiCall] never
      rejects (Transport), so the [catch] of [handleSearch] is unreachable
      and the only uncaught errors are reads of [name] on a nullish
      candidate.
    - Invariants, by induction on [reachable]: only gated searches are
      ever sent; no rejection is ever observed (the runtime bookkeeping
      [wf] that the progress theorems assume holds in every reachable
      state, [reachable_wf]).  Bounds and progress: a step sends at most
      one request; from any well-formed state the timer and the network
      alone, whatever it answers, bring the flow to rest (nothing in
      flight, timer idle), and a run of them has at most one event per
      request in flight plus two for a pending timer.
    - Composition (EndToEnd): over the real Transport, the search the timer
      sends is read by the provider as exactly the key and the typed text,
      and the forecast a selection sends as the key, the name, [days=7]
      and an [alerts] value ending in a newline.
    - Robustness: if every request succeeds with a body of the
      documented shape (the provider's field types included), the screen
      is on display in every state the flow reaches.
    - Semantics: a selection writes ['location: '], the Transport's lines,
      then ['got forecase: '], in this order.
    - Refinement (FlowSpec): a step whose settled request succeeded is a
      step of the spec's machine exactly when it is not a press of the
      search button closing the panel over candidates (the spec clears
      them, the code keeps them); every run that avoids that press moves
      along the machine.
    - URLs (Transport): a city name without [&] and [#] round-trips through
      the search URL; the forecast URL's last parameter carries a newline;
      a name [a&b] is read as [q=a] followed by [b]'s own parameters.
    - Render: until the first forecast arrives the forecast part shows
      placeholders and the country line reads [" undefined"]; a
      forecast without [forecastday] makes the render throw at line 122;
      an open panel over a non-empty array of candidates lists one entry
      per candidate, in order, with a border on all but the last; a render
      over an array [forecastday] shows one card per day, every card with
      the icon of the current condition; a [null] day makes it throw;
      conversely, a body of the provider's documented shape with
      documented candidates is always on display; a search body that is a
      non-empty string makes the render throw while the panel is open.
      [RenderSafety] closes the list: the screen is on display if and only
      if [weather] and [weatherImages] are not nullish, [forecastday] is
      absent under an absent [forecast] or an array of days that are not
      nullish and whose dates convert, the country, the condition text
      and (with a card) the icon convert to strings, the candidate list is
      not nullish, its [length] compares with [0] and it is an array
      whenever it is shown, and no [<Text>] shows an object.
      The styles: the search box is hidden by [display: 'none'] exactly
      when the panel is closed, and every candidate entry but the last has
      the two-pixel bottom border of [styles.locationItemBorder].
    - Malformed candidates (HomeScreen): pressing a [null] candidate
      clears the list and closes the panel, then throws at [loc.name]
      without sending a request.

    Every theorem with hypotheses has a witness that applies it to a
    concrete run ([HomeScreen.demo_events]: mount, forecast, panel, "L",
    "Lo", "Lon", timer, results, and its variants [race_state],
    [stale_forecast_state], [null_candidate_state]) or to the fixture
    bodies of [Render].

    ** Modelling choices, bounds and time

    Time is a [Z] of milliseconds; events come in time order and none comes
    after a pending debounce deadline (the timer would have fired first).
    React re-renders between events, so every closure sees the latest
    state; a user gesture needs the screen on display ([display]: the
    render did not throw and React mounted it), typing needs the input box
    shown.  The mount effect is an
    event like the others, so the model also admits gestures before it
    (React runs the effect right after the first render; the theorems do
    not depend on that order).  Request ids are [nat]
    counters and never wrap.  Numbers in JSON are integers (the code never
    computes with them); StringToNumber is modelled in full, with the sign
    of the rounded double decided exactly (ECMAScript lets an engine round
    literals of more than 20 significant digits at the 20th; that only
    matters within one unit of [2^-1075]).  The Transport's template
    literals use the total [to_str]: a city name that is an object with an
    own [toString] field would throw there, and the model does not follow
    that path (only [name] fields of candidates reach it).  No fuel is
    needed: every function is structurally recursive, and the
    executable [step] is what [reachable] closes over.

    ** Not modelled

    The inline style literals and layout props of static elements (icons,
    text sizes, the background image) carry no state and are left out; the
    style sheet itself and the style arrays that depend on state are
    modelled.  React's mount is modelled for the data children of the
    [<Text>] elements; the props handed to native views (an [Image]
    source, a style) are not checked by the model.  [apiKey] and
    [weatherImages] come from [../constants], not in
    the repository: they are parameters.  axios and the network are the
    environment: the outcome of a request is an input of the [Settle]
    event.  The runtime's date formatting is a parameter.  Percent-decoding
    by the provider is left out of [QueryString]: [parse_query] returns
    the raw values, so the round trips say that the URL carries the name's
    code units verbatim; a provider that decodes reads a name containing
    [+] or [%] differently (the code never encodes it). *)

From Stdlib Require Export ZArith Lia.
From stdpp Require Export base list option strings decidable.

Declare Scope weather_scope.
Delimit Scope weather_scope with weather.

(** ** Fallible evaluation

    A JavaScript expression either yields a value or throws.  [result E A]
    is that outcome; stdpp's [x ← m ; k] notation sequences it. *)

Inductive result (E A : Type) : Type :=
| Ok (a : A)
| Err (e : E).
Arguments Ok {E A} a.
Arguments Err {E A} e.

#[export] Instance result_ret {E} : MRet (result E) := fun _ a => Ok a.
#[export] Instance result_bind {E} : MBind (result E) :=
  fun _ _ f m => match m with Ok a => f a | Err e => Err e end.
#[export] Instance result_fmap {E} : FMap (result E) :=
  fun _ _ f m => match m with Ok a => Ok (f a) | Err e => Err e end.

(** [is_ok r] holds when the evaluation did not throw. *)
Definition is_ok {E A} (r : result E A) : bool :=
  match r with Ok _ => true | Err _ => false end.

Create HintDb weather.
Create Rewrite HintDb weather_rw.

Lemma result_bind_Ok {E A B} (a : A) (f : A -> result E B) :
  (Ok a ≫= f) = f a.
Proof. reflexivity. Qed.

Lemma result_bind_Err {E A B} (e : E) (f : A -> result E B) :
  (Err e ≫= f) = Err e.
Proof. reflexivity. Qed.

#[export] Hint Rewrite @result_bind_Ok @result_bind_Err : weather_rw.

(** ** Shared tactics *)

(** [destruct_binds H]: split a hypothesis [m ≫= f = Ok v] into the
    results of its successive binds, naming each equation. *)
Ltac destruct_binds H :=
  repeat match type of H with
  | (?m ≫= _) = Ok _ =>
      let E := fresh "Eb" in
      destruct m eqn:E; [autorewrite with weather_rw in H; cbv beta in H | discriminate H]
  end;
  try (cbv [mret result_ret] in H; injection H as <-).

(** [bind_ok H]: with [H : m = Ok a], step over the bind of [m] in the
    goal. *)
Ltac bind_ok H := rewrite H, result_bind_Ok; cbv beta.

(** ** Generic lemmas on lists and options *)

Lemma lookup_last_app {A} (l : list A) (x : A) :
  (l ++ [x]) !! length l = Some x.
Proof. rewrite lookup_app_r by lia. by rewrite Nat.sub_diag. Qed.

(** The first element satisfying [P] of [pre ++ x :: post], when no
    element of [pre] does. *)
Lemma list_find_middle {A} (P : A -> Prop) `{forall x, Decision (P x)} pre x post :
  Forall (fun y => ~ P y) pre -> P x ->
  list_find P (pre ++ x :: post) = Some (length pre, x).
Proof.
  intros Hpre Hx. rewrite list_find_app_r by (by apply list_find_None).
  simpl. rewrite decide_True by done. done.
Qed.

Lemma Forall_and_split {A} (P Q : A -> Prop) (l : list A) :
  Forall (fun x => P x /\ Q x) l -> Forall P l /\ Forall Q l.
Proof. intros H. split; (eapply Forall_impl; [|exact H]); naive_solver. Qed.

(** The element at [i] of a duplicate-free list is gone once [i] is
    deleted. *)
Lemma NoDup_delete_lookup {A} (l : list A) i x :
  NoDup l -> l !! i = Some x -> x ∉ delete i l.
Proof.
  intros Hnd Hi. rewrite (delete_Permutation l i x Hi) in Hnd.
  by apply list.NoDup_cons in Hnd as [? _].
Qed.

(** Two maps agree when the lists are related pointwise by the maps. *)
Lemma Forall2_map_eq {A B C} (f : A -> C) (g : B -> C) l ys :
  Forall2 (fun x y => g y = f x) l ys -> map g ys = map f l.
Proof. induction 1; cbn; congruence. Qed.

Lemma forallb_concat_map {A B} (P : B -> bool) (f : A -> list B) xs :
  forallb P (concat (map f xs)) = forallb (fun x => forallb P (f x)) xs.
Proof. induction xs as [|x xs IH]; cbn; [done|]. by rewrite forallb_app, IH. Qed.

Lemma forallb_map_comp {A B} (P : B -> bool) (f : A -> B) xs :
  forallb P (map f xs) = forallb (fun x => P (f x)) xs.
Proof. induction xs as [|x xs IH]; cbn; congruence. Qed.
