(* ===== verification/JsValue.v ===== *)
(** * JavaScript values as the weather screen sees them

    The data that flows through [src/api/weather.js] and
    [src/screens/HomeScreens.js] is JSON parsed by axios, plus the strings
    the code builds.  This file holds:
    - [jsstr]: a JavaScript string, a list of UTF-16 code units ([length]
      counts code units, as [value.length] does);
    - [jsval]: undefined, null, booleans, numbers (integral numbers only:
      the code never computes with numbers, it passes them to the UI),
      strings, arrays and objects (property lists, the last binding of a
      key wins as in [JSON.parse]);
    - [get]: property access [v.k] and [v[i]], throwing a TypeError on
      [undefined] and [null];
    - [chain]: an optional chain [a?.b.c] with its short-circuit;
    - [to_str]: the ToString conversion used by template literals and by
      [+] with a string operand. *)

From S2P Require Import Prelude.
From Stdlib Require Import DecimalString.

(** ** Strings *)

(** A JavaScript string: its UTF-16 code units. *)
Definition jsstr := list Z.

(** A source literal (ASCII or Latin-1 text): one code unit per
    character. *)
Fixpoint lit (s : string) : jsstr :=
  match s with
  | EmptyString => []
  | String a s' => Z.of_nat (Ascii.nat_of_ascii a) :: lit s'
  end.

(** Decimal text of an integer, as [String(n)] prints it. *)
Definition z_to_jsstr (n : Z) : jsstr :=
  lit (NilEmpty.string_of_int (Z.to_int n)).

(** Decimal text of an array index. *)
Definition nat_to_jsstr (i : nat) : jsstr := z_to_jsstr (Z.of_nat i).

(** [Array.prototype.join] on already converted elements. *)
Fixpoint join (sep : jsstr) (l : list jsstr) : jsstr :=
  match l with
  | [] => []
  | [x] => x
  | x :: l' => x ++ sep ++ join sep l'
  end.

(** ** Values *)

Local Set Warnings "-register-all".

Inductive jsval : Type :=
| JUndefined
| JNull
| JBool (b : bool)
| JNum (n : Z)
| JStr (s : jsstr)
| JArr (xs : list jsval)
| JObj (props : list (jsstr * jsval)).

(** The induction principle of [jsval] with the hypothesis on the
    elements of arrays and the values of objects. *)
Definition jsval_ind' (P : jsval -> Prop)
    (fundef : P JUndefined) (fnull : P JNull) (fbool : forall b, P (JBool b))
    (fnum : forall n, P (JNum n)) (fstr : forall s, P (JStr s))
    (farr : forall xs, Forall P xs -> P (JArr xs))
    (fobj : forall ps, Forall (fun p => P (snd p)) ps -> P (JObj ps)) :=
  fix F (v : jsval) : P v :=
    match v as v0 return P v0 with
    | JUndefined => fundef
    | JNull => fnull
    | JBool b => fbool b
    | JNum n => fnum n
    | JStr s => fstr s
    | JArr xs => farr xs ((fix G (l : list jsval) : Forall P l :=
                            match l with
                            | [] => Forall_nil _
                            | x :: l' => Forall_cons _ x l' (F x) (G l')
                            end) xs)
    | JObj ps => fobj ps ((fix G (l : list (jsstr * jsval)) : Forall (fun p => P (snd p)) l :=
                            match l with
                            | [] => Forall_nil _
                            | p :: l' => Forall_cons (fun p => P (snd p)) p l' (F (snd p)) (G l')
                            end) ps)
    end.

(** A property key: a name [v.k] or an index [v[i]]. *)
Inductive key : Type :=
| KName (k : jsstr)
| KIndex (i : nat).

(** The property name a key denotes on an ordinary object. *)
Definition key_string (k : key) : jsstr :=
  match k with KName s => s | KIndex i => nat_to_jsstr i end.

(** The errors the modelled code can throw. *)
Inductive jserror : Type :=
| ReadOfNullish (base : jsval) (k : key)   (* TypeError: cannot read property k of base *)
| NotAFunction (what : jsstr)             (* TypeError: x.map is not a function *)
| UnhandledRejection (reason : jsval)     (* a rejected promise nobody catches *)
| NoPrimitive (v : jsval)                 (* TypeError: cannot convert object to primitive value *)
| InvalidChild (v : jsval).               (* Error: objects are not valid as a React child *)

(** [v === undefined || v === null], the test of [?.]. *)
Definition nullish (v : jsval) : bool :=
  match v with JUndefined | JNull => true | _ => false end.

(** Own property lookup: the last binding of a key wins. *)
Fixpoint obj_get (ps : list (jsstr * jsval)) (k : jsstr) : option jsval :=
  match ps with
  | [] => None
  | (k', v) :: ps' =>
      match obj_get ps' k with
      | Some w => Some w
      | None => if decide (k = k') then Some v else None
      end
  end.

Definition length_key : jsstr := lit "length".

(** [v.k] / [v[i]].  Strings and arrays have [length] and indices;
    numbers and booleans have none of the names the code reads. *)
Definition get (v : jsval) (k : key) : result jserror jsval :=
  match v with
  | JUndefined | JNull => Err (ReadOfNullish v k)
  | JBool _ | JNum _ => Ok JUndefined
  | JStr s =>
      Ok match k with
         | KName n => if decide (n = length_key) then JNum (Z.of_nat (length s))
                      else JUndefined
         | KIndex i => match s !! i with Some c => JStr [c] | None => JUndefined end
         end
  | JArr xs =>
      Ok match k with
         | KName n => if decide (n = length_key) then JNum (Z.of_nat (length xs))
                      else JUndefined
         | KIndex i => default JUndefined (xs !! i)
         end
  | JObj ps => Ok (default JUndefined (obj_get ps (key_string k)))
  end.

(** ** Optional chains

    A link of a chain is [.k] (plain) or [?.k] (optional).  When the base
    of an optional link is nullish, the whole rest of the chain evaluates
    to [undefined] without being evaluated (the short-circuit). *)

Inductive link : Type :=
| Dot (k : key)
| QDot (k : key).

Fixpoint chain (v : jsval) (ls : list link) : result jserror jsval :=
  match ls with
  | [] => Ok v
  | Dot k :: rest => get v k ≫= fun w => chain w rest
  | QDot k :: rest =>
      if nullish v then Ok JUndefined else get v k ≫= fun w => chain w rest
  end.

(** Shorthand for a name key. *)
Definition nm (s : string) : key := KName (lit s).

(** ** ToString *)

Fixpoint to_str (v : jsval) : jsstr :=
  match v with
  | JUndefined => lit "undefined"
  | JNull => lit "null"
  | JBool b => lit (if b then "true" else "false")
  | JNum n => z_to_jsstr n
  | JStr s => s
  | JArr xs =>
      join (lit ",") (map (fun x => if nullish x then [] else to_str x) xs)
  | JObj _ => lit "[object Object]"
  end.

(** ** Well-typed values

    A JavaScript string is a sequence of 16-bit code units; [jsstr] admits
    any integers, so [str_ok] is the type of the strings the program can
    hold, and [val_ok] extends it to values. *)

Definition code_unit_ok (c : Z) : bool := bool_decide (0 <= c < 65536)%Z.

Definition str_ok (s : jsstr) : bool := forallb code_unit_ok s.

Fixpoint val_ok (v : jsval) : bool :=
  match v with
  | JStr s => str_ok s
  | JArr xs => forallb val_ok xs
  | JObj ps => forallb (fun p => str_ok (fst p) && val_ok (snd p)) ps
  | _ => true
  end.

(** ** Lemmas *)

Lemma get_nullish v k : nullish v = true -> get v k = Err (ReadOfNullish v k).
Proof. destruct v; simpl; congruence. Qed.

Lemma get_not_nullish v k : nullish v = false -> exists w, get v k = Ok w.
Proof. destruct v; simpl; try discriminate; eauto. Qed.

#[export] Hint Resolve get_not_nullish : weather.

(** A chain made only of optional links never throws. *)
Lemma chain_all_optional_ok v ls :
  Forall (fun l => exists k, l = QDot k) ls -> is_ok (chain v ls) = true.
Proof.
  intros Hall. revert v. induction Hall as [|l ls [k ->] _ IH]; intros v; [done|].
  simpl. destruct (nullish v) eqn:Hn; [done|].
  destruct (get_not_nullish v k Hn) as [w ->]. apply IH.
Qed.

(** The only error a property read throws is the read of a nullish base. *)
Lemma get_Err v k e : get v k = Err e -> e = ReadOfNullish v k.
Proof. destruct v; cbn; congruence. Qed.

(** An optional link on a base whose read succeeds is a plain read. *)
Lemma chain_QDot_Ok v k w rest :
  get v k = Ok w -> chain v (QDot k :: rest) = chain w rest.
Proof. intros H. cbn [chain]. rewrite H. destruct v; cbn in H |- *; congruence. Qed.

(** The value of a chain made only of optional links. *)
Lemma chain_optional_exists v ls :
  Forall (fun l => exists k, l = QDot k) ls -> exists w, chain v ls = Ok w.
Proof. intros H. pose proof (chain_all_optional_ok v ls H). destruct (chain v ls); [eauto|done]. Qed.

(** [optional_chain v ls w Hw] names the value [w] of an optional chain. *)
Ltac optional_chain v ls w Hw :=
  destruct (chain_optional_exists v ls) as [w Hw]; [by repeat econstructor|].

(** Only a nullish base makes a property read throw. *)
Lemma get_Err_nullish v k e : get v k = Err e -> nullish v = true.
Proof. destruct v; cbn; congruence. Qed.

(** A property read that succeeds was on a value that is not nullish. *)
Lemma get_Ok_not_nullish v k w : get v k = Ok w -> nullish v = false.
Proof. destruct v; cbn; congruence. Qed.

(** *** Well-typedness is preserved *)

Lemma str_ok_app s1 s2 : str_ok (s1 ++ s2) = str_ok s1 && str_ok s2.
Proof. apply forallb_app. Qed.

#[export] Hint Rewrite str_ok_app : weather_rw.

(** Source literals are Latin-1: one code unit below 256 per character. *)
Lemma lit_ok s : str_ok (lit s) = true.
Proof.
  induction s as [|a s IH]; [done|].
  change (code_unit_ok (Z.of_nat (Ascii.nat_of_ascii a)) && str_ok (lit s) = true).
  rewrite IH, andb_true_r.
  apply bool_decide_eq_true. pose proof (Ascii.nat_ascii_bounded a). lia.
Qed.

Lemma join_ok sep l :
  str_ok sep = true -> forallb str_ok l = true -> str_ok (join sep l) = true.
Proof.
  intros Hsep. induction l as [|x [|y l] IH]; cbn; [done|by rewrite andb_true_r|].
  intros Hl. apply andb_true_iff in Hl as [Hx Hl].
  autorewrite with weather_rw. rewrite Hx, Hsep. by apply IH.
Qed.

(** ToString of a well-typed value is a well-typed string. *)
Lemma to_str_ok v : val_ok v = true -> str_ok (to_str v) = true.
Proof.
  induction v as [| | b | n | s | xs IH | ps _] using jsval_ind'; intros Hv;
    cbn [to_str z_to_jsstr]; try apply lit_ok; [exact Hv|].
  cbn in Hv. apply join_ok; [apply lit_ok|].
  apply forallb_forall. intros y Hy. apply in_map_iff in Hy as (x & <- & Hx).
  destruct (nullish x); [done|].
  rewrite Forall_forall in IH. apply IH; [exact Hx|].
  exact (proj1 (forallb_forall _ _) Hv x Hx).
Qed.

Lemma obj_get_ok ps k w :
  forallb (fun p => str_ok (fst p) && val_ok (snd p)) ps = true -> obj_get ps k = Some w ->
  val_ok w = true.
Proof.
  induction ps as [|[k' v] ps IH]; [done|]. cbn. intros [Hkv Hps]%andb_true_iff.
  destruct (obj_get ps k) eqn:E; [intros [= <-]; by apply IH|].
  case_decide; [|done]. intros [= <-]. by apply andb_true_iff in Hkv as [_ ?].
Qed.

(** A property read of a well-typed value yields a well-typed value. *)
Lemma get_ok v k w : val_ok v = true -> get v k = Ok w -> val_ok w = true.
Proof.
  intros Hv. destruct v as [| | | |s|xs|ps]; cbn; intros H; try discriminate;
    injection H as <-; try done.
  - destruct k as [n|i]; [by case_decide|].
    destruct (s !! i) as [c|] eqn:Hi; [|done]. cbn.
    apply list_elem_of_lookup_2 in Hi. apply list_elem_of_In in Hi.
    by rewrite (proj1 (forallb_forall _ _) Hv c Hi).
  - destruct k as [n|i]; [by case_decide|].
    destruct (xs !! i) as [x|] eqn:Hi; [|done]. cbn.
    apply list_elem_of_lookup_2 in Hi. apply list_elem_of_In in Hi.
    exact (proj1 (forallb_forall _ _) Hv x Hi).
  - destruct (obj_get ps (key_string k)) eqn:E; [|done]. by eapply obj_get_ok.
Qed.

Lemma chain_ok v ls w : val_ok v = true -> chain v ls = Ok w -> val_ok w = true.
Proof.
  revert v. induction ls as [|[k|k] ls IH]; intros v Hv; cbn; [by intros [= <-]|..].
  - destruct (get v k) as [x|] eqn:E; [|discriminate]. apply IH. by eapply get_ok.
  - destruct (nullish v); [by intros [= <-]|].
    destruct (get v k) as [x|] eqn:E; [|discriminate]. apply IH. by eapply get_ok.
Qed.
