(* ===== verification/Coercion.v ===== *)
(** * The JavaScript coercions the screen triggers

    Three expressions of [HomeScreens.js] convert a value the network
    handed over: [" " + location?.country] (line 89) and
    ['https:' + current?.condition?.icon] (line 145) call ToString through
    ToPrimitive, [new Date(item.date)] (line 141) calls ToPrimitive, and
    [locations.length > 0] (line 157) calls ToNumber through ToPrimitive.
    This file models them after ECMAScript 2023, sections 7.1.1-7.1.4 and
    7.1.17, for the values [JSON.parse] produces:
    - an object's ToPrimitive calls its [valueOf] and [toString]; the
      inherited ones give ["[object Object]"], but an own property named
      [toString] (JSON data, so not callable) leaves no method that
      returns a primitive, and the conversion throws a TypeError;
    - an array's ToPrimitive is [Array.prototype.join(",")], which writes
      [undefined] and [null] elements as [""] and converts the others with
      ToString, left to right;
    - [string_to_number] is StringToNumber (7.1.4.1.1): white space
      trimmed, an optional sign, [Infinity], decimal literals with fraction
      and exponent, and the [0x], [0o], [0b] integers; anything else is
      [NaN], and an empty string is [0].  Only the sign of the result is
      used by the code, so a number is kept as [±m * 10^e] and [positive]
      decides [x > 0] after rounding to a double (a positive value below
      half the least subnormal, [2^-1075], rounds to zero). *)

From S2P Require Import Prelude JsValue.

Local Open Scope Z_scope.

(** ** ToString and ToPrimitive *)

(** An own property [toString]: in JSON data it is never callable. *)
Definition own_toString (ps : list (jsstr * jsval)) : bool :=
  bool_decide (is_Some (obj_get ps (lit "toString"))).

(** Evaluate [f] on every element, left to right, stopping at the first
    throw: what [Array.prototype.map] and [join] do with a callback or a
    conversion that may throw. *)
Fixpoint map_result {A B} (f : A -> result jserror B) (xs : list A) : result jserror (list B) :=
  match xs with
  | [] => Ok []
  | x :: xs' => y ← f x; ys ← map_result f xs'; mret (y :: ys)
  end.

Fixpoint to_string (v : jsval) : result jserror jsstr :=
  match v with
  | JObj ps => if own_toString ps then Err (NoPrimitive v) else Ok (lit "[object Object]")
  | JArr xs =>
      ss ← map_result (fun x => if nullish x then Ok [] else to_string x) xs;
      mret (join (lit ",") ss)
  | _ => Ok (to_str v)
  end.

(** ToPrimitive: objects and arrays become their string, primitives stay. *)
Definition to_primitive (v : jsval) : result jserror jsval :=
  match v with
  | JObj _ | JArr _ => JStr <$> to_string v
  | _ => Ok v
  end.

(** [v[k]] with a computed key (line 94): the base is checked first,
    then the key goes through ToPropertyKey, a ToPrimitive with hint
    string followed by ToString. *)
Definition get_computed (v k : jsval) : result jserror jsval :=
  if nullish v then Err (ReadOfNullish v (KName (to_str k)))
  else s ← to_string k; get v (KName s).

(** ** StringToNumber *)

(** The sign-and-magnitude view of a Number: [NaN], an infinity, or
    [±m * 10^e] with [m >= 0]. *)
Inductive jsnum : Type :=
| NaN
| Infinity (neg : bool)
| Decimal (neg : bool) (m e : Z).

(** StrWhiteSpaceChar: WhiteSpace (TAB, VT, FF, ZWNBSP and the Zs
    spaces) and LineTerminator (LF, CR, LS, PS). *)
Definition is_ws (c : Z) : bool :=
  bool_decide (c ∈ [9; 10; 11; 12; 13; 32; 160; 5760; 8232; 8233; 8239; 8287; 12288; 65279]%Z)
  || bool_decide (8192 <= c <= 8202)%Z.

Fixpoint drop_ws (s : jsstr) : jsstr :=
  match s with
  | c :: s' => if is_ws c then drop_ws s' else s
  | [] => []
  end.

Definition trim (s : jsstr) : jsstr := rev (drop_ws (rev (drop_ws s))).

Definition is_dec (c : Z) : bool := bool_decide (48 <= c <= 57)%Z.

(** The decimal digits at the front of [s], and the rest. *)
Fixpoint span_digits (s : jsstr) : jsstr * jsstr :=
  match s with
  | c :: s' => if is_dec c then let '(d, r) := span_digits s' in (c :: d, r) else ([], s)
  | [] => ([], [])
  end.

(** The value of a digit in [base] (2, 8, 10 or 16), letters of either
    case for hexadecimal. *)
Definition digit_val (base c : Z) : option Z :=
  let d := if bool_decide (48 <= c <= 57)%Z then Some (c - 48)
           else if bool_decide (97 <= c <= 122)%Z then Some (c - 87)
           else if bool_decide (65 <= c <= 90)%Z then Some (c - 55)
           else None in
  match d with Some x => if bool_decide (x < base)%Z then Some x else None | None => None end.

(** The value of a string made only of digits of [base]. *)
Fixpoint digits_in (base : Z) (s : jsstr) (acc : Z) : option Z :=
  match s with
  | [] => Some acc
  | c :: s' => match digit_val base c with
               | Some d => digits_in base s' (acc * base + d)
               | None => None
               end
  end.

(** NonDecimalIntegerLiteral after its prefix: at least one digit. *)
Definition radix (base : Z) (ds : jsstr) : jsnum :=
  match ds with
  | [] => NaN
  | _ => match digits_in base ds 0 with Some m => Decimal false m 0 | None => NaN end
  end.

(** An ExponentPart, or nothing: [e] or [E], an optional sign, digits. *)
Definition exponent (r : jsstr) : option Z :=
  match r with
  | [] => Some 0%Z
  | c :: r' =>
      if bool_decide (c = 101 \/ c = 69)%Z then
        let '(sgn, ds) := match r' with
                          | 43 :: ds => (1, ds) | 45 :: ds => (-1, ds) | _ => (1, r')
                          end%Z in
        match ds with
        | [] => None
        | _ => if forallb is_dec ds then Some (sgn * default 0 (digits_in 10 ds 0))%Z else None
        end
      else None
  end.

(** StrUnsignedDecimalLiteral: [Infinity], or digits with an optional
    fraction (at least one digit in all) and an optional exponent. *)
Definition unsigned_decimal (neg : bool) (s : jsstr) : jsnum :=
  if decide (s = lit "Infinity") then Infinity neg else
  let '(d1, r1) := span_digits s in
  let '(d2, r2) := match r1 with
                   | 46 :: r => span_digits r
                   | _ => ([], r1)
                   end%Z in
  match d1 ++ d2 with
  | [] => NaN
  | ds => match exponent r2 with
          | Some e => Decimal neg (default 0 (digits_in 10 ds 0)) (e - Z.of_nat (length d2))
          | None => NaN
          end
  end.

(** StringToNumber. *)
Definition string_to_number (s : jsstr) : jsnum :=
  match trim s with
  | [] => Decimal false 0 0
  | 48 :: c :: ds =>
      if bool_decide (c = 120 \/ c = 88) then radix 16 ds
      else if bool_decide (c = 111 \/ c = 79) then radix 8 ds
      else if bool_decide (c = 98 \/ c = 66) then radix 2 ds
      else unsigned_decimal false (48 :: c :: ds)
  | 43 :: r => unsigned_decimal false r
  | 45 :: r => unsigned_decimal true r
  | t => unsigned_decimal false t
  end%Z.

(** ToNumber of a primitive. *)
Definition prim_number (v : jsval) : jsnum :=
  match v with
  | JUndefined => NaN
  | JNull => Decimal false 0 0
  | JBool b => Decimal false (if b then 1 else 0) 0
  | JNum n => Decimal (n <? 0)%Z (Z.abs n) 0
  | JStr s => string_to_number s
  | JArr _ | JObj _ => NaN
  end.

(** [m * 10^e] does not round to zero: it exceeds [2^-1075].  Below
    [10^-k] with [k > log2 m + 1076] it is certainly smaller. *)
Definition above_underflow (m e : Z) : bool :=
  if (0 <=? e)%Z then true
  else if (Z.log2 m + 1076 <? - e)%Z then false
  else (10 ^ (- e) <? m * 2 ^ 1075)%Z.

(** [x > 0] for a Number; [NaN] compares false. *)
Definition positive (n : jsnum) : bool :=
  match n with
  | NaN => false
  | Infinity neg => negb neg
  | Decimal neg m e => negb neg && (0 <? m)%Z && above_underflow m e
  end.

(** [x > 0] (line 157): ToPrimitive with hint number, then ToNumber. *)
Definition gt_zero (v : jsval) : result jserror bool :=
  p ← to_primitive v; mret (positive (prim_number p)).

(** ** Lemmas *)

(** [map_result] that completes relates each element to its image. *)
Lemma map_result_Forall2 {A B} (f : A -> result jserror B) l ys :
  map_result f l = Ok ys -> Forall2 (fun x y => f x = Ok y) l ys.
Proof.
  revert ys. induction l as [|x l IH]; intros ys H; cbn in H.
  - injection H as <-. constructor.
  - destruct_binds H. constructor; auto.
Qed.

(** A conversion that succeeds writes what [to_str] writes. *)
Lemma to_string_Ok v s : to_string v = Ok s -> s = to_str v.
Proof.
  revert s. induction v as [| | b | n | str | xs IH | ps _] using jsval_ind'; intros s;
    cbn [to_string]; try (by intros [= <-]).
  - intros H. destruct_binds H. cbn [to_str]. f_equal.
    apply map_result_Forall2 in Eb. revert IH. clear -Eb.
    induction Eb as [|x s xs ss Hx _ IHs]; intros IH; [done|].
    apply list.Forall_cons in IH as [Hxs IH]. cbn. f_equal; [|by apply IHs].
    destruct (nullish x); [by injection Hx|by apply Hxs].
  - by destruct (own_toString ps); [|intros [= <-]].
Qed.

(** Primitives convert without a method call. *)
Lemma to_string_prim v :
  match v with JArr _ | JObj _ => False | _ => True end -> to_string v = Ok (to_str v).
Proof. by destruct v. Qed.

Lemma gt_zero_JNum n : gt_zero (JNum n) = Ok (0 <? n)%Z.
Proof.
  cbn. f_equal. rewrite andb_true_r.
  destruct (Z.ltb_spec n 0), (Z.ltb_spec 0 (Z.abs n)), (Z.ltb_spec 0 n); cbn; try done; lia.
Qed.

(** ToPrimitive completes exactly when ToString does. *)
Lemma to_primitive_ok v : is_ok (to_string v) = true -> exists p, to_primitive v = Ok p.
Proof.
  intros H. destruct v; try by eexists.
  all: cbn [to_primitive]; destruct (to_string _); [by eexists|done].
Qed.


(** ... and conversely. *)
Lemma to_primitive_Ok_string v p : to_primitive v = Ok p -> is_ok (to_string v) = true.
Proof.
  intros H. destruct v; try done; cbn [to_primitive] in H;
    match type of H with context [to_string ?x] => destruct (to_string x) end; done.
Qed.

(** A computed read that completed was on a base that is not nullish,
    with a key that converts. *)
Lemma get_computed_Ok v k x :
  get_computed v k = Ok x -> nullish v = false /\ is_ok (to_string k) = true.
Proof.
  unfold get_computed. destruct (nullish v); [discriminate|].
  destruct (to_string k); [done|discriminate].
Qed.
