(* ===== verification/Styles.v ===== *)
(** * The style sheet of [HomeScreens] (lines 183-260)

    [styles] is the object [StyleSheet.create] builds from the literal of
    lines 183-260: twelve named style objects whose properties are numbers
    and strings.  React Native's [StyleSheet.create] hands the object back
    unchanged ([StyleSheet_create] is the identity), and a [style] prop
    that is an array is read through [StyleSheet.flatten]: [flatten] merges
    the entries left to right, later properties overriding earlier ones,
    and skips the falsy entries ([''], [false], [null], [undefined]).
    [style_prop] is the value a component ends up with for one property.
    The state-dependent style arrays of lines 68 and 167 are built in
    [Render.render]. *)

From S2P Require Import Prelude JsValue.

(** The object literal of lines 183-260, property for property. *)
Definition styles_table : list (jsstr * jsval) := [
  (lit "container", JObj
     [(lit "flex", JNum 1);
      (lit "position", JStr (lit "relative"))]);
  (lit "backgroundImage", JObj
     [(lit "flex", JNum 1);
      (lit "width", JStr (lit "100%"));
      (lit "height", JStr (lit "100%"));
      (lit "position", JStr (lit "absolute"))]);
  (lit "safeArea", JObj
     [(lit "flex", JNum 1)]);
  (lit "searchContainer", JObj
     [(lit "flexDirection", JStr (lit "row"));
      (lit "alignItems", JStr (lit "center"));
      (lit "justifyContent", JStr (lit "flex-end"));
      (lit "marginHorizontal", JNum 10);
      (lit "marginTop", JNum 30)]);
  (lit "inputBox", JObj
     [(lit "flex", JNum 1);
      (lit "height", JNum 45);
      (lit "backgroundColor", JStr (lit "rgba(255, 255, 255, 0.2)"));
      (lit "borderRadius", JNum 30);
      (lit "paddingHorizontal", JNum 10);
      (lit "flexDirection", JStr (lit "row"));
      (lit "alignItems", JStr (lit "center"))]);
  (lit "input", JObj
     [(lit "flex", JNum 1);
      (lit "color", JStr (lit "white"));
      (lit "fontSize", JNum 16);
      (lit "paddingLeft", JNum 12);
      (lit "alignItems", JStr (lit "center"))]);
  (lit "searchButton", JObj
     [(lit "backgroundColor", JStr (lit "rgba(255, 255, 255, 0.3)"));
      (lit "borderRadius", JNum 9999);
      (lit "padding", JNum 10);
      (lit "marginLeft", JNum 10);
      (lit "alignItems", JStr (lit "center"))]);
  (lit "location", JObj
     [(lit "position", JStr (lit "absolute"));
      (lit "width", JStr (lit "95%"));
      (lit "backgroundColor", JStr (lit "rgba(255, 255, 255, 1)"));
      (lit "top", JNum 80);
      (lit "marginLeft", JNum 10);
      (lit "borderRadius", JNum 30);
      (lit "borderBottomColor", JStr (lit "#9CA3AF"))]);
  (lit "locationItem", JObj
     [(lit "flexDirection", JStr (lit "row"));
      (lit "alignItems", JStr (lit "center"));
      (lit "padding", JNum 15);
      (lit "paddingLeft", JNum 12);
      (lit "paddingRight", JNum 1);
      (lit "marginBottom", JNum 3)]);
  (lit "locationItemBorder", JObj
     [(lit "borderBottomWidth", JNum 2);
      (lit "borderBottomColor", JStr (lit "#9CA3AF"))]);
  (lit "locationText", JObj
     [(lit "marginHorizontal", JNum 16);
      (lit "justifyContent", JStr (lit "space-around"));
      (lit "flex", JNum 1);
      (lit "marginBottom", JNum 8)]);
  (lit "Image", JObj
     [(lit "flexDirection", JStr (lit "row"));
      (lit "justifyContent", JStr (lit "center"))])
].

(** [StyleSheet.create(obj)] returns [obj]. *)
Definition StyleSheet_create (o : jsval) : jsval := o.

(** Line 183: [const styles = StyleSheet.create({...})]. *)
Definition styles : jsval := StyleSheet_create (JObj styles_table).

(** [styles.name]: a read of a property of the style sheet. *)
Definition style_of (name : string) : jsval :=
  match get styles (nm name) with Ok v => v | Err _ => JUndefined end.

(** [StyleSheet.flatten]: an object contributes its properties, an array
    the flattening of its entries in order.  Other values contribute
    nothing; in these style arrays they are the falsy [''] of line 163. *)
Fixpoint flatten (s : jsval) : list (jsstr * jsval) :=
  match s with
  | JObj ps => ps
  | JArr xs => (fix go (xs : list jsval) : list (jsstr * jsval) :=
                  match xs with [] => [] | x :: xs' => flatten x ++ go xs' end) xs
  | _ => []
  end.

(** The value the component ends up with for property [k]. *)
Definition style_prop (s : jsval) (k : string) : option jsval :=
  obj_get (flatten s) (lit k).
