(* ===== verification/Transport.v ===== *)
(** * The Transport: [src/api/weather.js]

    - [forecastEndpoint], [locationEndpoint]: the template literals of lines
      4-6, over the API key (a value of [../constants], not in the
      repository, hence a parameter) and the request parameters;
    - [apiCall_options]: the axios options object of [apiCall];
    - [apiCall_settle]: how [apiCall]'s promise settles for each outcome of
      [axios.request] ([Resolved response] or [Rejected error]): the
      [try]/[catch] turns every failure into [null] and a log line;
    - [fetchWeatherForecast], [fetchLocation]: the exported operations;
    - [WeatherApi]: the contract the screen relies on, and its instance
      [weather_api];
    - [QueryString]: how the provider reads a URL's query, the abstract
      specification the endpoints are checked against. *)

From S2P Require Import Prelude JsValue.

(** ** Requests, outcomes, settlements *)

(** The argument object [{ cityName, days }] of the two operations;
    a property the caller leaves out is [undefined]. *)
Record params : Type := mk_params { cityName : jsval; days : jsval }.

(** The options object [{ method: 'GET', url: endpoint }]. *)
Record request : Type := mk_request { method : jsstr; url : jsstr }.

(** What [axios.request(options)] does: resolve with a response object or
    reject with an error. *)
Inductive outcome : Type :=
| Resolved (response : jsval)
| Rejected (error : jsval).

(** The outcome carries well-typed values (a response parsed from JSON). *)
Definition outcome_ok (o : outcome) : bool :=
  match o with Resolved r => val_ok r | Rejected e => val_ok e end.

(** How a promise settles. *)
Inductive settlement : Type :=
| Fulfilled (v : jsval)
| RejectedWith (reason : jsval).

(** What was thrown: a JavaScript value, or an error of the model. *)
Inductive thrown : Type :=
| ThrownValue (v : jsval)
| ThrownError (e : jserror).

(** A console line: [console.log] or [console.error], its tag, its value. *)
Inductive log_entry : Type :=
| LogLine (tag : jsstr) (v : thrown)
| ErrorLine (tag : jsstr) (v : thrown).

(** ** [src/api/weather.js] *)

Section Endpoints.
Context (apiKey : jsval).

(** Line 4-5: the template literal ends with a newline, line 5 starting
    with the closing backquote. *)
Definition forecastEndpoint (p : params) : jsstr :=
  lit "https://api.weatherapi.com/v1/forecast.json?key=" ++ to_str apiKey ++
  lit "&q=" ++ to_str (cityName p) ++ lit "&days=" ++ to_str (days p) ++
  lit "&aqi=no&alerts=no" ++ [10%Z].

(** Line 6. *)
Definition locationEndpoint (p : params) : jsstr :=
  lit "https://api.weatherapi.com/v1/search.json?key=" ++ to_str apiKey ++
  lit "&q=" ++ to_str (cityName p).

(** Lines 9-12, 14: the request [apiCall] hands to axios. *)
Definition apiCall_options (endpoint : jsstr) : request :=
  mk_request (lit "GET") endpoint.

(** Lines 13-19: the settlement of [apiCall]'s promise.  Reading
    [respoonse.data] is inside the [try], so a throw there is caught
    too. *)
Definition apiCall_settle (o : outcome) : settlement * list log_entry :=
  match o with
  | Resolved response =>
      match get response (nm "data") with
      | Ok data => (Fulfilled data, [])
      | Err e => (Fulfilled JNull, [LogLine (lit "error:") (ThrownError e)])
      end
  | Rejected error => (Fulfilled JNull, [LogLine (lit "error:") (ThrownValue error)])
  end.

(** Lines 22-24. *)
Definition fetchWeatherForecast (p : params) : request :=
  apiCall_options (forecastEndpoint p).

(** Lines 26-28. *)
Definition fetchLocation (p : params) : request :=
  apiCall_options (locationEndpoint p).
End Endpoints.

(** The response object of a successful request with body [d]. *)
Definition response_with (d : jsval) : jsval := JObj [(lit "data", d)].

(** ** The contract of the Transport

    What [HomeScreens.js] may assume of [weather.js]: each operation is one
    GET request, its promise never rejects, a response's body is passed
    through unchanged, a rejection becomes [null], the only console lines
    it writes are [console.log] lines, and a well-typed outcome settles
    to a well-typed value. *)

Class WeatherApi : Type := {
  api_forecast : params -> request;
  api_location : params -> request;
  api_settle : outcome -> settlement * list log_entry;
  api_forecast_get : forall p, method (api_forecast p) = lit "GET";
  api_location_get : forall p, method (api_location p) = lit "GET";
  api_never_rejects : forall o, exists v, fst (api_settle o) = Fulfilled v;
  api_settle_data : forall resp d, get resp (nm "data") = Ok d ->
    fst (api_settle (Resolved resp)) = Fulfilled d;
  api_settle_rejected : forall e, fst (api_settle (Rejected e)) = Fulfilled JNull;
  api_logs_plain : forall o, Forall (fun l => exists tag v, l = LogLine tag v) (snd (api_settle o));
  api_settle_ok : forall o, outcome_ok o = true ->
    match fst (api_settle o) with Fulfilled v => val_ok v = true | RejectedWith _ => True end
}.

(** The instance: [src/api/weather.js] over a key. *)
#[export] Instance weather_api (apiKey : jsval) : WeatherApi := {
  api_forecast := fetchWeatherForecast apiKey;
  api_location := fetchLocation apiKey;
  api_settle := apiCall_settle;
  api_forecast_get := fun _ => eq_refl;
  api_location_get := fun _ => eq_refl;
  api_never_rejects := fun o =>
    match o return exists v, fst (apiCall_settle o) = Fulfilled v with
    | Resolved resp =>
        match get resp (nm "data") as r
              return exists v, fst (match r with
                                    | Ok d => (Fulfilled d, [])
                                    | Err e => (Fulfilled JNull, [LogLine (lit "error:") (ThrownError e)])
                                    end) = Fulfilled v with
        | Ok d => ex_intro _ d eq_refl
        | Err _ => ex_intro _ JNull eq_refl
        end
    | Rejected _ => ex_intro _ JNull eq_refl
    end;
  api_settle_data := ltac:(intros resp d Hd; cbn; by rewrite Hd);
  api_settle_rejected := fun _ => eq_refl;
  api_logs_plain := ltac:(intros [resp|err]; cbn; [destruct (get resp (nm "data")) |];
                          repeat constructor; eauto);
  api_settle_ok := ltac:(intros [resp|err] Ho; cbn; [|done];
                         destruct (get resp (nm "data")) eqn:E; [|done]; by eapply get_ok)
}.

(** A key for the examples. *)
Definition demo_key : jsval := JStr (lit "demo-key").

(** ** How the provider reads a URL

    The abstract specification of an endpoint: the list of query
    parameters a server reads from it.  The query is what lies between the
    first [?] and the first [#]; it is split at every [&], each part at
    its first [=].  (Percent-decoding is left out: the code never encodes,
    and the theorems below are about city names with no [%] or [+] to
    decode.) *)

Module QueryString.
Definition amp : Z := 38.
Definition hash : Z := 35.
Definition equals : Z := 61.
Definition qmark : Z := 63.

(** [s.split(c)]. *)
Fixpoint split_on (c : Z) (s : jsstr) : list jsstr :=
  match s with
  | [] => [[]]
  | x :: s' =>
      if decide (x = c) then [] :: split_on c s'
      else match split_on c s' with
           | [] => [[x]]
           | y :: ys => (x :: y) :: ys
           end
  end.

(** The text before the first [c], and the text after it if [c]
    occurs. *)
Fixpoint break_at (c : Z) (s : jsstr) : jsstr * option jsstr :=
  match s with
  | [] => ([], None)
  | x :: s' =>
      if decide (x = c) then ([], Some s')
      else let '(a, b) := break_at c s' in (x :: a, b)
  end.

Definition query_of (u : jsstr) : jsstr :=
  match snd (break_at qmark u) with
  | Some rest => fst (break_at hash rest)
  | None => []
  end.

Definition param_of (part : jsstr) : jsstr * jsstr :=
  let '(k, v) := break_at equals part in (k, default [] v).

Definition parse_query (u : jsstr) : list (jsstr * jsstr) :=
  map param_of (split_on amp (query_of u)).

(** A value that stays one parameter value: no [&], no [#]. *)
Definition plain (s : jsstr) : Prop := (amp ∉ s) /\ (hash ∉ s).

#[export] Instance plain_dec s : Decision (plain s) := _.
End QueryString.

(** ** Theorems on [apiCall] *)

(** Under the contract, a response's body is what the caller gets. *)
Lemma api_settle_body `{WeatherApi} d :
  fst (api_settle (Resolved (response_with d))) = Fulfilled d.
Proof. by apply api_settle_data. Qed.


Section ApiCall.
Context (apiKey : jsval).

(** C10: [apiCall]'s promise never rejects: whatever axios does, it
    fulfils. *)
Theorem apiCall_never_rejects (o : outcome) :
  exists v, fst (apiCall_settle o) = Fulfilled v.
Proof.
  destruct o as [resp|err]; simpl; [|eauto].
  destruct (get resp (nm "data")); simpl; eauto.
Qed.

End ApiCall.

(** ** Facts on the query-string reader *)

Section QueryStringFacts.
Import QueryString.

Lemma split_on_free c a : c ∉ a -> split_on c a = [a].
Proof.
  induction a as [|x a IH]; intros Hc; [done|].
  rewrite not_elem_of_cons in Hc. destruct Hc as [Hx Ha]. simpl.
  rewrite decide_False by congruence. by rewrite IH.
Qed.

Lemma split_on_app c a b : c ∉ a -> split_on c (a ++ c :: b) = a :: split_on c b.
Proof.
  induction a as [|x a IH]; intros Hc; simpl.
  - by rewrite decide_True.
  - rewrite not_elem_of_cons in Hc. destruct Hc as [Hx Ha].
    rewrite decide_False by congruence. by rewrite IH.
Qed.

Lemma break_at_free c a : c ∉ a -> break_at c a = (a, None).
Proof.
  induction a as [|x a IH]; intros Hc; [done|].
  rewrite not_elem_of_cons in Hc. destruct Hc as [Hx Ha]. simpl.
  rewrite decide_False by congruence. by rewrite IH.
Qed.

Lemma break_at_app c a b : c ∉ a -> break_at c (a ++ c :: b) = (a, Some b).
Proof.
  induction a as [|x a IH]; intros Hc; simpl.
  - by rewrite decide_True.
  - rewrite not_elem_of_cons in Hc. destruct Hc as [Hx Ha].
    rewrite decide_False by congruence. by rewrite IH.
Qed.

Lemma param_of_app k v : equals ∉ k -> param_of (k ++ equals :: v) = (k, v).
Proof. intros H. unfold param_of. by rewrite break_at_app. Qed.
End QueryStringFacts.

(** [notin]: discharge [c ∉ l] for [l] built from literals, [::], [++]
    and strings known to avoid [c]. *)
Ltac notin :=
  repeat first [ rewrite not_elem_of_app | rewrite not_elem_of_cons
               | rewrite elem_of_nil ];
  repeat split;
  first [ assumption | apply (bool_decide_unpack _); vm_compute; exact I
        | intros [] ].



(** ** The endpoints against the query-string reader *)

Section Urls.
Import QueryString.
Context (apiKey : jsval).

Let K := to_str apiKey.

Lemma locationEndpoint_parts p :
  locationEndpoint apiKey p =
  lit "https://api.weatherapi.com/v1/search.json" ++ qmark ::
    (lit "key" ++ equals :: K) ++ amp :: lit "q" ++ equals :: to_str (cityName p).
Proof. unfold locationEndpoint. cbn. reflexivity. Qed.

Lemma forecastEndpoint_parts p :
  forecastEndpoint apiKey p =
  lit "https://api.weatherapi.com/v1/forecast.json" ++ qmark ::
    (lit "key" ++ equals :: K) ++ amp ::
    (lit "q" ++ equals :: to_str (cityName p)) ++ amp ::
    (lit "days" ++ equals :: to_str (days p)) ++ amp ::
    (lit "aqi" ++ equals :: lit "no") ++ amp ::
    lit "alerts" ++ equals :: lit "no" ++ [10%Z].
Proof. unfold forecastEndpoint. cbn. reflexivity. Qed.

(** The search URL carries the key as its first parameter and the city
    name, unsplit, after [&q=]. *)
Lemma locationEndpoint_query p :
  plain K -> hash ∉ to_str (cityName p) ->
  parse_query (locationEndpoint apiKey p) =
  (lit "key", K) :: map param_of (split_on amp (lit "q" ++ equals :: to_str (cityName p))).
Proof.
  intros [HKa HKh] Hh. unfold parse_query, query_of.
  rewrite locationEndpoint_parts, break_at_app by notin. cbn [snd].
  rewrite break_at_free by notin. cbn [fst].
  rewrite split_on_app by notin. cbn [map].
  by rewrite param_of_app by notin.
Qed.

(** The query of the search URL over plain values. *)
Lemma location_query_plain p :
  plain K -> plain (to_str (cityName p)) ->
  parse_query (locationEndpoint apiKey p) =
  [(lit "key", K); (lit "q", to_str (cityName p))].
Proof.
  intros HK [Ha Hh]. rewrite locationEndpoint_query by done.
  rewrite split_on_free by notin. cbn [map].
  by rewrite param_of_app by notin.
Qed.

(** The query of the forecast URL over plain values. *)
Lemma forecast_query_plain p :
  plain K -> plain (to_str (cityName p)) -> plain (to_str (days p)) ->
  parse_query (forecastEndpoint apiKey p) =
  [(lit "key", K); (lit "q", to_str (cityName p)); (lit "days", to_str (days p));
   (lit "aqi", lit "no"); (lit "alerts", lit "no" ++ [10%Z])].
Proof.
  intros [HKa HKh] [Hca Hch] [Hda Hdh]. unfold parse_query, query_of.
  rewrite forecastEndpoint_parts, break_at_app by notin. cbn [snd].
  rewrite break_at_free by notin. cbn [fst].
  rewrite !split_on_app, split_on_free by notin. cbn [map].
  by rewrite !param_of_app by notin.
Qed.

(** C15: round trip of the search URL: a city name with no [&] and no
    [#] is read back by the provider as exactly the [q] parameter, next
    to the key. *)
Theorem locationEndpoint_roundtrip p :
  plain K -> plain (to_str (cityName p)) ->
  parse_query (locationEndpoint apiKey p) =
  [(lit "key", K); (lit "q", to_str (cityName p))].
Proof. apply location_query_plain. Qed.

(** C16: the forecast URL is read as five parameters, and the last one,
    [alerts], has the value ["no\n"]: the template literal of line 4-5
    ends with a newline. *)
Theorem forecastEndpoint_query p :
  plain K -> plain (to_str (cityName p)) -> plain (to_str (days p)) ->
  parse_query (forecastEndpoint apiKey p) =
  [(lit "key", K); (lit "q", to_str (cityName p)); (lit "days", to_str (days p));
   (lit "aqi", lit "no"); (lit "alerts", lit "no" ++ [10%Z])].
Proof. apply forecast_query_plain. Qed.

(** C17: the city name is not encoded: when the name is [a & b] with no
    [&] in [a] and no [#] anywhere, the provider reads [q] as [a] only, and
    reads [b] as parameters of its own, after [q]. *)
Theorem locationEndpoint_injection p a b :
  plain K -> to_str (cityName p) = a ++ amp :: b -> amp ∉ a -> hash ∉ a ++ amp :: b ->
  parse_query (locationEndpoint apiKey p) =
  [(lit "key", K); (lit "q", a)] ++ map param_of (split_on amp b).
Proof.
  intros HK Hn Ha Hh. rewrite locationEndpoint_query by (rewrite ?Hn; done).
  rewrite Hn, app_comm_cons, app_assoc, split_on_app by notin. cbn [map].
  by rewrite param_of_app by notin.
Qed.
End Urls.

Lemma locationEndpoint_roundtrip_witness :
  QueryString.parse_query
    (locationEndpoint demo_key (mk_params (JStr (lit "London")) JUndefined)) =
  [(lit "key", lit "demo-key"); (lit "q", lit "London")].
Proof. apply (locationEndpoint_roundtrip demo_key); split; notin. Defined.

Lemma forecastEndpoint_query_witness :
  QueryString.parse_query
    (forecastEndpoint demo_key (mk_params (JStr (lit "Islamabad")) (JStr (lit "7")))) =
  [(lit "key", lit "demo-key"); (lit "q", lit "Islamabad"); (lit "days", lit "7");
   (lit "aqi", lit "no"); (lit "alerts", lit "no" ++ [10%Z])].
Proof. apply (forecastEndpoint_query demo_key); split; notin. Defined.

Lemma locationEndpoint_injection_witness :
  QueryString.parse_query
    (locationEndpoint demo_key (mk_params (JStr (lit "Paris&days=1")) JUndefined)) =
  [(lit "key", lit "demo-key"); (lit "q", lit "Paris"); (lit "days", lit "1")].
Proof.
  rewrite (locationEndpoint_injection demo_key _ (lit "Paris") (lit "days=1"));
    [reflexivity | split; notin | reflexivity | notin | notin].
Defined.
