(* ===== verification/Render.v ===== *)
(** * The render of [HomeScreens] (lines 11-13, 54-181)

    The screen's React state is the record [ui] ([showSearch],
    [locations], [weather], the three [useState] of lines 11-13).  [render]
    evaluates the JSX of lines 54-181 on it, in source order, to a [view]:
    the values the screen displays, with the TypeErrors the expressions can
    throw, and the two style arrays that depend on the state (lines 68 and
    167, read through [Styles.flatten]).  The conversions of lines 89,
    94, 141, 145 and 157 are those of [Coercion].  [display] adds React's
    mount of the view: a [<Text>] child that is an object throws.  The
    static styles and images are left out; the two values
    imported from [../constants] and the date formatting of the runtime are
    section variables. *)

From S2P Require Import Prelude JsValue Coercion Styles.

(** The three [useState] hooks. *)
Record ui : Type := mk_ui {
  showSearch : bool;
  locations : jsval;
  weather : jsval
}.

(** Lines 11-13: [useState(false)], [useState([])], [useState([])]. *)
Definition ui_init : ui := mk_ui false (JArr []) (JArr []).

(** One card of the daily forecast (lines 144-148). *)
Record day_view : Type := mk_day_view {
  day_icon : jsstr;        (* 'https:' + current?.condition?.icon *)
  day_label : jsstr;       (* the weekday name of item.date *)
  day_avgtemp : jsval      (* item?.day?.avgtemp_c *)
}.

(** One entry of the candidate list (lines 161-172). *)
Record item_view : Type := mk_item_view {
  item_name : jsval;       (* loc?.name *)
  item_country : jsval;    (* loc?.country *)
  item_border : bool;      (* index + 1 !== locations.length *)
  item_style : jsval       (* [styles.locationItem, borderClass] *)
}.

Record view : Type := mk_view {
  v_inputStyle : jsval;                  (* line 68 *)
  v_name : jsval;                        (* line 88 *)
  v_country : jsstr;                     (* line 89 *)
  v_image : jsval;                       (* line 94 *)
  v_temp : jsval;                        (* line 99 *)
  v_condition : jsval;                   (* line 102 *)
  v_wind : jsval;                        (* line 110 *)
  v_humidity : jsval;                    (* line 116 *)
  v_sunrise : jsval;                     (* line 122 *)
  v_days : option (list day_view);       (* lines 139-150 *)
  v_candidates : option (list item_view) (* lines 157-175 *)
}.

(** [x?.map(f)]: nothing when [x] is nullish, the elements of an array,
    a TypeError for any other value (it has no [map] method). *)
Definition opt_map_call (v : jsval) : result jserror (option (list jsval)) :=
  if nullish v then Ok None
  else match v with
       | JArr xs => Ok (Some xs)
       | _ => Err (NotAFunction (lit "map"))
       end.

(** The [(index, x)] pairs [Array.prototype.map] passes to its callback. *)
Definition indexed {A} (xs : list A) : list (nat * A) := imap (fun i x => (i, x)) xs.

Section Render.
(** [weatherImages] of [../constants] and the runtime's
    [new Date(d).toLocaleDateString('en-Us', {weekday:'long'})]. *)
Context (weatherImages : jsval) (dayName : jsval -> jsstr).

(** Lines 140-148: one card; [item.date] throws on a nullish item. *)
Definition render_day (current : jsval) (item : jsval) : result jserror day_view :=
  date ← get item (nm "date");
  _ ← to_primitive date;                                      (* new Date(item.date) *)
  icon ← chain current [QDot (nm "condition"); QDot (nm "icon")];
  uri ← to_string icon;                                       (* 'https:' + icon *)
  avg ← chain item [QDot (nm "day"); QDot (nm "avgtemp_c")];
  mret (mk_day_view (lit "https:" ++ uri) (dayName date) avg).

(** Lines 159-173: the candidate at [index] of a list of [total]. *)
Definition render_item (total : nat) (entry : nat * jsval) : result jserror item_view :=
  let '(index, loc) := entry in
  let showBorder := negb (Nat.eqb (S index) total) in
  let borderClass := if showBorder then style_of "locationItemBorder" else JStr [] in
  name ← chain loc [QDot (nm "name")];
  country ← chain loc [QDot (nm "country")];
  mret (mk_item_view name country showBorder (JArr [style_of "locationItem"; borderClass])).

(** Lines 157-175.  [locations.length] is read whatever [showSearch]
    is: [&&] evaluates its left operand first. *)
Definition render_candidates (u : ui) : result jserror (option (list item_view)) :=
  len ← get (locations u) (nm "length");
  pos ← gt_zero len;
  if pos && showSearch u then
    match locations u with
    | JArr xs =>
        items ← map_result (render_item (length xs)) (indexed xs);
        mret (Some items)
    | _ => Err (NotAFunction (lit "map"))
    end
  else mret None.

(** Lines 54-181. *)
Definition render (u : ui) : result jserror view :=
  (* line 54: const { current, location } = weather *)
  current ← get (weather u) (nm "current");
  location ← get (weather u) (nm "location");
  name ← chain location [QDot (nm "name")];
  country ← chain location [QDot (nm "country")];
  country_s ← to_string country;                              (* " " + country *)
  text ← chain current [QDot (nm "condition"); QDot (nm "text")];
  image ← get_computed weatherImages text;
  temp ← chain current [QDot (nm "temp_c")];
  wind ← chain current [QDot (nm "wind_kph")];
  humidity ← chain current [QDot (nm "humidity")];
  sunrise ← chain (weather u) [QDot (nm "forecast"); QDot (nm "forecastday");
                               Dot (KIndex 0); QDot (nm "astro"); QDot (nm "sunrise")];
  fd ← chain (weather u) [QDot (nm "forecast"); QDot (nm "forecastday")];
  days ← opt_map_call fd;
  cards ← match days with
          | Some items => Some <$> map_result (render_day current) items
          | None => mret None
          end;
  cands ← render_candidates u;
  mret (mk_view (JArr [style_of "inputBox";
                       if showSearch u then JObj [] else JObj [(lit "display", JStr (lit "none"))]])
                name (lit " " ++ country_s) image temp text
                wind humidity sunrise cards cands).
End Render.

(** ** React's reconciliation

    The component returns the element tree; React then mounts it, and a
    child of [<Text>] must be a string, a number, a boolean, [null],
    [undefined] or an array of such children: any other object throws
    "Objects are not valid as a React child". *)

Fixpoint child_ok (v : jsval) : bool :=
  match v with
  | JObj _ => false
  | JArr xs => forallb child_ok xs
  | _ => true
  end.

(** The children of the [<Text>] elements that come from data, in tree
    order: lines 88, 99, 102, 110, 116, 122, then line 147 of every card
    and line 170 of every candidate entry.  The others are strings. *)
Definition view_children (v : view) : list jsval :=
  [v_name v; v_temp v; v_condition v; v_wind v; v_humidity v; v_sunrise v] ++
  match v_days v with Some cards => map day_avgtemp cards | None => [] end ++
  match v_candidates v with
  | Some items => concat (map (fun it => [item_name it; item_country it]) items)
  | None => []
  end.

(** Mounting the view: the first invalid child throws. *)
Definition reconcile (v : view) : result jserror view :=
  match list_find (fun x => child_ok x = false) (view_children v) with
  | Some (_, x) => Err (InvalidChild x)
  | None => Ok v
  end.

(** The screen as the user sees it: the component's render, then React's
    mount of the result. *)
Definition display (weatherImages : jsval) (dayName : jsval -> jsstr) (u : ui) : result jserror view :=
  v ← render weatherImages dayName u; reconcile v.

(** A forecast body whose [forecast] has no [forecastday]. *)
Definition body_without_days : jsval :=
  JObj [(lit "location", JObj []); (lit "current", JObj []); (lit "forecast", JObj [])].

(** A forecast body with two days, and one whose only day is [null]. *)
Definition body_two_days : jsval :=
  JObj [(lit "location", JObj [(lit "name", JStr (lit "Islamabad"))]);
        (lit "current", JObj [(lit "condition", JObj [(lit "icon", JStr (lit "//cdn/113.png"))])]);
        (lit "forecast", JObj [(lit "forecastday",
           JArr [JObj [(lit "date", JStr (lit "2024-06-01"));
                       (lit "day", JObj [(lit "avgtemp_c", JNum 31)])];
                 JObj [(lit "date", JStr (lit "2024-06-02"));
                       (lit "day", JObj [(lit "avgtemp_c", JNum 29)])]])])].

Definition body_null_day : jsval :=
  JObj [(lit "location", JObj []); (lit "current", JObj []);
        (lit "forecast", JObj [(lit "forecastday", JArr [JNull])])].

(** The value an access path reads, [undefined] where it throws. *)
Definition read (w : jsval) (p : list link) : jsval :=
  match chain w p with Ok x => x | Err _ => JUndefined end.

(** ToString (and so ToPrimitive) of the value completes. *)
Definition convertible (v : jsval) : bool := is_ok (to_string v).

(** The forecast part of a body renders: [forecast] is nullish, or its
    [forecastday] is an array of days that are not nullish and whose
    [date] [new Date] accepts.  This is the shape the provider documents
    (spec section 3, ForecastResult). *)
Definition forecast_renderable (w : jsval) : bool :=
  match get w (nm "forecast") with
  | Ok fc =>
      if nullish fc then true
      else match get fc (nm "forecastday") with
           | Ok (JArr ds) =>
               forallb (fun d => negb (nullish d) && convertible (read d [Dot (nm "date")])) ds
           | _ => false
           end
  | Err _ => false
  end.

(** The values the render converts to strings convert: the country of
    line 89, the condition text that keys [weatherImages] (line 94), and,
    when at least one card is drawn, the icon of line 145. *)
Definition fields_convertible (w : jsval) : bool :=
  convertible (read w [QDot (nm "location"); QDot (nm "country")]) &&
  convertible (read w [QDot (nm "current"); QDot (nm "condition"); QDot (nm "text")]) &&
  match read w [QDot (nm "forecast"); QDot (nm "forecastday")] with
  | JArr (_ :: _) => convertible (read w [QDot (nm "current"); QDot (nm "condition"); QDot (nm "icon")])
  | _ => true
  end.

(** The data children of the view, read off the React state: what
    [view_children] holds after a render that completed. *)
Definition shown_children (u : ui) : list jsval :=
  let w := weather u in
  [read w [QDot (nm "location"); QDot (nm "name")];
   read w [QDot (nm "current"); QDot (nm "temp_c")];
   read w [QDot (nm "current"); QDot (nm "condition"); QDot (nm "text")];
   read w [QDot (nm "current"); QDot (nm "wind_kph")];
   read w [QDot (nm "current"); QDot (nm "humidity")];
   read w [QDot (nm "forecast"); QDot (nm "forecastday");
           Dot (KIndex 0); QDot (nm "astro"); QDot (nm "sunrise")]] ++
  match read w [QDot (nm "forecast"); QDot (nm "forecastday")] with
  | JArr ds => map (fun d => read d [QDot (nm "day"); QDot (nm "avgtemp_c")]) ds
  | _ => []
  end ++
  match locations u with
  | JArr xs =>
      if showSearch u
      then concat (map (fun x => [read x [QDot (nm "name")]; read x [QDot (nm "country")]]) xs)
      else []
  | _ => []
  end.

(** The leaf types the provider documents: a string or a number, or the
    field is absent. *)
Definition str_leaf (v : jsval) : bool :=
  match v with JStr _ | JUndefined | JNull => true | _ => false end.

Definition num_leaf (v : jsval) : bool :=
  match v with JNum _ | JUndefined | JNull => true | _ => false end.

(** A forecast body of the documented shape (spec section 3,
    ForecastResult, with the provider's types): an object whose
    [forecast], when present, has an array [forecastday] of days; strings
    for the names, the condition, the sunrise and the dates, numbers for
    the measurements.  Any field may be absent. *)
Definition documented_forecast (w : jsval) : bool :=
  negb (nullish w) && forecast_renderable w &&
  forallb (fun p => str_leaf (read w p))
    [[QDot (nm "location"); QDot (nm "name")]; [QDot (nm "location"); QDot (nm "country")];
     [QDot (nm "current"); QDot (nm "condition"); QDot (nm "text")];
     [QDot (nm "current"); QDot (nm "condition"); QDot (nm "icon")];
     [QDot (nm "forecast"); QDot (nm "forecastday");
      Dot (KIndex 0); QDot (nm "astro"); QDot (nm "sunrise")]] &&
  forallb (fun p => num_leaf (read w p))
    [[QDot (nm "current"); QDot (nm "temp_c")]; [QDot (nm "current"); QDot (nm "wind_kph")];
     [QDot (nm "current"); QDot (nm "humidity")]] &&
  match read w [QDot (nm "forecast"); QDot (nm "forecastday")] with
  | JArr ds => forallb (fun d => num_leaf (read d [QDot (nm "day"); QDot (nm "avgtemp_c")])) ds
  | _ => true
  end.

(** A search body of the documented shape (LocationCandidate): an array
    whose entries carry string names and countries. *)
Definition documented_candidates (l : jsval) : bool :=
  match l with
  | JArr xs => forallb (fun x => str_leaf (read x [QDot (nm "name")]) &&
                                 str_leaf (read x [QDot (nm "country")])) xs
  | _ => false
  end.

(** ** Lemmas: when the render throws *)

(** A value that is [convertible] has its string. *)
Lemma convertible_Ok v : convertible v = true -> exists s, to_string v = Ok s.
Proof. unfold convertible. destruct (to_string v); [eauto|done]. Qed.

(** [read] of a path that completes is its value. *)
Lemma read_Ok w p x : chain w p = Ok x -> read w p = x.
Proof. unfold read. by intros ->. Qed.

(** [read] past an optional link whose read succeeds. *)
Lemma read_QDot w k v p : get w k = Ok v -> read w (QDot k :: p) = read v p.
Proof. intros H. unfold read. by rewrite (chain_QDot_Ok _ _ _ _ H). Qed.

Section RenderFacts.
Context (weatherImages : jsval) (dayName : jsval -> jsstr).

(** A render that completes has evaluated the candidate list. *)
Lemma render_ok_candidates u v :
  render weatherImages dayName u = Ok v ->
  render_candidates u = Ok (v_candidates v).
Proof.
  unfold render. intros H. destruct_binds H. done.
Qed.

Lemma render_candidates_nullish u :
  nullish (locations u) = true -> is_ok (render_candidates u) = false.
Proof. intros Hn. unfold render_candidates. rewrite (get_nullish (locations u)) by exact Hn. reflexivity. Qed.

(** A nullish [weather] makes line 54's destructuring throw. *)
Lemma render_weather_nullish u :
  nullish (weather u) = true -> is_ok (render weatherImages dayName u) = false.
Proof. intros Hn. unfold render. rewrite (get_nullish (weather u) (nm "current")) by exact Hn. reflexivity. Qed.

(** A nullish [locations] makes line 157's [locations.length] throw,
    whether the panel is open or not. *)
Lemma render_locations_nullish u :
  nullish (locations u) = true -> is_ok (render weatherImages dayName u) = false.
Proof.
  intros Hn. destruct (render weatherImages dayName u) as [v|] eqn:E; [|done].
  apply render_ok_candidates in E.
  pose proof (render_candidates_nullish u Hn) as Hc. by rewrite E in Hc.
Qed.

(** [map_result] throws as soon as [f] throws on one element. *)
Lemma map_result_Err {A B} (f : A -> result jserror B) l x e :
  x ∈ l -> f x = Err e -> is_ok (map_result f l) = false.
Proof.
  intros Hx Hf. destruct (map_result f l) as [ys|] eqn:E; [|done].
  apply map_result_Forall2 in E. apply list_elem_of_lookup in Hx as [i Hi].
  destruct (Forall2_lookup_l _ _ _ _ _ E Hi) as (y & _ & Hy). congruence.
Qed.

(** A card that renders read [item.date], and shows the current
    condition's icon and the item's average temperature. *)
Lemma render_day_ok current item c :
  render_day dayName current item = Ok c ->
  (exists date, get item (nm "date") = Ok date /\ day_label c = dayName date) /\
  (exists icon, chain current [QDot (nm "condition"); QDot (nm "icon")] = Ok icon /\
                day_icon c = lit "https:" ++ to_str icon) /\
  chain item [QDot (nm "day"); QDot (nm "avgtemp_c")] = Ok (day_avgtemp c).
Proof.
  unfold render_day. intros H. destruct_binds H. cbn.
  split; [eauto|]. split; [|done]. eexists. split; [done|]. by rewrite (to_string_Ok _ _ Eb2).
Qed.

(** A render that completes has evaluated the cards of lines 139-150
    from [current] and [forecastday]. *)
Lemma render_ok_days u v :
  render weatherImages dayName u = Ok v ->
  exists current fd, get (weather u) (nm "current") = Ok current /\
    chain (weather u) [QDot (nm "forecast"); QDot (nm "forecastday")] = Ok fd /\
    match opt_map_call fd with
    | Ok (Some items) => Some <$> map_result (render_day dayName current) items = Ok (v_days v)
    | Ok None => v_days v = None
    | Err _ => False
    end.
Proof.
  unfold render. intros H. destruct_binds H. do 2 eexists. split; [done|]. split; [done|].
  rewrite Eb11. destruct a11; [done|]. by injection Eb12 as <-.
Qed.

(** [map_result] succeeds when [f] does on every element. *)
Lemma map_result_total {A B} (f : A -> result jserror B) (l : list A) :
  (forall x, x ∈ l -> exists y, f x = Ok y) ->
  exists ys, map_result f l = Ok ys /\ Forall2 (fun x y => f x = Ok y) l ys.
Proof.
  induction l as [|x l IH]; intros Hf.
  - exists []. split; [done|constructor].
  - destruct (Hf x) as [y Hy]; [apply list_elem_of_here|].
    destruct IH as (ys & Hys & Hall); [intros z Hz; apply Hf, list_elem_of_further, Hz|].
    exists (y :: ys). split; [cbn; rewrite Hy, Hys; reflexivity|by constructor].
Qed.

(** An entry of the candidate list never throws: it reads with [?.]. *)
Lemma render_item_ok n i loc :
  exists it, render_item n (i, loc) = Ok it /\
    chain loc [QDot (nm "name")] = Ok (item_name it) /\
    chain loc [QDot (nm "country")] = Ok (item_country it) /\
    item_border it = negb (Nat.eqb (S i) n).
Proof.
  unfold render_item.
  optional_chain loc [QDot (nm "name")] a E1.
  optional_chain loc [QDot (nm "country")] b E2.
  rewrite E1, E2. eexists. split; [reflexivity|]. cbn. auto.
Qed.

(** The candidate list over an array, past the read of its [length]. *)
Lemma render_candidates_JArr u xs :
  locations u = JArr xs ->
  render_candidates u =
    if (0 <? Z.of_nat (length xs))%Z && showSearch u
    then items ← map_result (render_item (length xs)) (indexed xs); mret (Some items)
    else mret None.
Proof.
  intros Hl. unfold render_candidates. rewrite Hl.
  assert (get (JArr xs) (nm "length") = Ok (JNum (Z.of_nat (length xs)))) as -> by reflexivity.
  by rewrite result_bind_Ok, gt_zero_JNum, result_bind_Ok.
Qed.

(** A candidate list that is shown came from an array, one entry per
    element, each rendered at its index. *)
Lemma render_candidates_Some u items :
  render_candidates u = Ok (Some items) ->
  exists xs, locations u = JArr xs /\
    Forall2 (fun p it => render_item (length xs) p = Ok it) (indexed xs) items.
Proof.
  unfold render_candidates. intros H. destruct_binds H.
  destruct (_ && showSearch u); [|discriminate].
  destruct (locations u) as [| | | | |xs|]; try discriminate.
  destruct (map_result _ _) as [ys|] eqn:E; [|discriminate]. injection H as <-.
  exists xs. split; [done|]. by apply map_result_Forall2.
Qed.

(** The entry rendered at index [i] of [indexed xs] is the one of
    [xs !! i], and there are as many entries as elements. *)
Lemma indexed_Forall2_lookup {B} (P : nat * jsval -> B -> Prop) xs ys i y :
  Forall2 P (indexed xs) ys -> ys !! i = Some y ->
  length ys = length xs /\ exists x, xs !! i = Some x /\ P (i, x) y.
Proof.
  intros Hall Hi. split.
  - apply Forall2_length in Hall. unfold indexed in Hall. by rewrite <-Hall, length_imap.
  - destruct (Forall2_lookup_r _ _ _ _ _ Hall Hi) as (p & Hp & HP).
    unfold indexed in Hp. rewrite list_lookup_imap in Hp.
    destruct (xs !! i) as [x|]; [|discriminate]. injection Hp as <-. eauto.
Qed.

(** The candidate list over an array never throws. *)
Lemma render_candidates_total u xs :
  locations u = JArr xs -> exists c, render_candidates u = Ok c.
Proof.
  intros Hl. rewrite (render_candidates_JArr u xs Hl).
  destruct (_ && showSearch u); [|eauto].
  destruct (map_result_total (render_item (length xs)) (indexed xs)) as (items & -> & _);
    [intros [i loc] _; destruct (render_item_ok (length xs) i loc) as (it & ? & _); eauto|].
  eauto.
Qed.

(** A card of a day that is not nullish, whose date and icon convert,
    never throws. *)
Lemma render_day_total current d :
  nullish d = false -> convertible (read d [Dot (nm "date")]) = true ->
  convertible (read current [QDot (nm "condition"); QDot (nm "icon")]) = true ->
  exists c, render_day dayName current d = Ok c.
Proof.
  intros Hd Hdc Hic. unfold render_day. destruct (get_not_nullish d (nm "date") Hd) as [date Hdate].
  optional_chain current [QDot (nm "condition"); QDot (nm "icon")] icon Hi.
  optional_chain d [QDot (nm "day"); QDot (nm "avgtemp_c")] avg Ha.
  unfold read in Hdc, Hic. cbn [chain] in Hdc. rewrite Hdate in Hdc. rewrite Hi in Hic.
  destruct (to_primitive_ok date Hdc) as [p Hp]. destruct (convertible_Ok _ Hic) as [uri Hu].
  bind_ok Hdate. bind_ok Hp. bind_ok Hi. bind_ok Hu. bind_ok Ha. eauto.
Qed.

(** The three reads of [forecast] of lines 122 and 139 on a renderable
    body. *)
Lemma forecast_chains w :
  nullish w = false -> forecast_renderable w = true ->
  exists sunrise fd days,
    chain w [QDot (nm "forecast"); QDot (nm "forecastday");
             Dot (KIndex 0); QDot (nm "astro"); QDot (nm "sunrise")] = Ok sunrise /\
    chain w [QDot (nm "forecast"); QDot (nm "forecastday")] = Ok fd /\
    opt_map_call fd = Ok days /\
    (forall items, days = Some items -> fd = JArr items /\
       Forall (fun d => nullish d = false /\ convertible (read d [Dot (nm "date")]) = true) items).
Proof.
  intros Hw Hr. destruct (get_not_nullish w (nm "forecast") Hw) as [fc Hfc].
  unfold forecast_renderable in Hr. rewrite Hfc in Hr.
  rewrite !(chain_QDot_Ok _ _ _ _ Hfc). destruct (nullish fc) eqn:Hn.
  - exists JUndefined, JUndefined, None. cbn [chain]. rewrite Hn.
    split; [done|]. split; [done|]. split; [done|]. by intros ? ?.
  - destruct (get_not_nullish fc (nm "forecastday") Hn) as [fd Hfd]. rewrite Hfd in Hr.
    destruct fd as [| | | | |ds|]; try discriminate.
    rewrite !(chain_QDot_Ok _ _ _ _ Hfd).
    optional_chain (default JUndefined (ds !! 0)) [QDot (nm "astro"); QDot (nm "sunrise")] sr Hsr.
    exists sr, (JArr ds), (Some ds). split; [exact Hsr|]. split; [done|]. split; [done|].
    intros items [= <-]. split; [done|]. apply Forall_forall. intros d Hd.
    apply (proj1 (forallb_forall _ _) Hr) in Hd.
    apply andb_true_iff in Hd as [Hd Hc]. by destruct (nullish d).
Qed.

(** The cards of lines 139-150 over renderable days. *)
Lemma render_cards_total cur items :
  Forall (fun d => nullish d = false /\ convertible (read d [Dot (nm "date")]) = true) items ->
  (items <> [] -> convertible (read cur [QDot (nm "condition"); QDot (nm "icon")]) = true) ->
  exists cs, map_result (render_day dayName cur) items = Ok cs.
Proof.
  intros Hall Hicon. destruct items as [|d0 rest]; [by exists []|].
  destruct (map_result_total (render_day dayName cur) (d0 :: rest)) as (cs & Hcs & _); [|eauto].
  intros d Hd. apply list_elem_of_In in Hd.
  destruct (proj1 (Forall_forall _ _) Hall d Hd) as [Hn Hc].
  apply render_day_total; [done..|]. by apply Hicon.
Qed.

(** The render completes when [weatherImages] and [weather] are not
    nullish, the forecast part is renderable, the converted fields
    convert and the candidate list does not throw: every other read of
    lines 54-181 is an optional chain. *)
Lemma render_ok_of u :
  nullish weatherImages = false -> nullish (weather u) = false ->
  forecast_renderable (weather u) = true -> fields_convertible (weather u) = true ->
  is_ok (render_candidates u) = true ->
  is_ok (render weatherImages dayName u) = true.
Proof.
  intros Hi Hw Hr Hconv Hcand. unfold render.
  unfold fields_convertible in Hconv. apply andb_true_iff in Hconv as [Hconv Hicon].
  apply andb_true_iff in Hconv as [Hcty Htxt].
  destruct (get_not_nullish _ (nm "current") Hw) as [cur Hc]. bind_ok Hc.
  destruct (get_not_nullish _ (nm "location") Hw) as [loc Hloc]. bind_ok Hloc.
  rewrite (read_QDot _ _ _ _ Hloc) in Hcty. rewrite (read_QDot _ _ _ _ Hc) in Htxt.
  rewrite (read_QDot _ _ _ _ Hc) in Hicon.
  optional_chain loc [QDot (nm "name")] name Hn. bind_ok Hn.
  optional_chain loc [QDot (nm "country")] country Hco. bind_ok Hco.
  rewrite (read_Ok _ _ _ Hco) in Hcty. destruct (convertible_Ok _ Hcty) as [cs Hcs]. bind_ok Hcs.
  optional_chain cur [QDot (nm "condition"); QDot (nm "text")] text Ht. bind_ok Ht.
  rewrite (read_Ok _ _ _ Ht) in Htxt. destruct (convertible_Ok _ Htxt) as [ks Hks].
  assert (exists img, get_computed weatherImages text = Ok img) as [img Himg].
  { unfold get_computed. rewrite Hi, Hks, result_bind_Ok. by apply get_not_nullish. }
  bind_ok Himg.
  optional_chain cur [QDot (nm "temp_c")] temp Htemp. bind_ok Htemp.
  optional_chain cur [QDot (nm "wind_kph")] wind Hwind. bind_ok Hwind.
  optional_chain cur [QDot (nm "humidity")] hum Hhum. bind_ok Hhum.
  destruct (forecast_chains _ Hw Hr) as (sr & fd & days & Hsr & Hfd & Hdays & Hall).
  rewrite (read_Ok _ _ _ Hfd) in Hicon.
  bind_ok Hsr. bind_ok Hfd. bind_ok Hdays.
  assert (exists cards, match days with
                        | Some items => Some <$> map_result (render_day dayName cur) items
                        | None => mret None
                        end = Ok cards) as [cards Hcards].
  { destruct days as [items|]; [|eexists; reflexivity].
    destruct (Hall items eq_refl) as [-> Hdays'].
    destruct (render_cards_total cur items Hdays') as [cs' ->]; [|eexists; reflexivity].
    intros Hne. by destruct items. }
  bind_ok Hcards. destruct (render_candidates u) as [c|]; [|discriminate]. reflexivity.
Qed.

(** ** Lemmas: React's mount *)

(** The mount completes exactly when every data child is valid. *)
Lemma reconcile_ok v : is_ok (reconcile v) = forallb child_ok (view_children v).
Proof.
  unfold reconcile. destruct (list_find _ _) as [[i x]|] eqn:E.
  - apply list_find_Some in E as (Hi & Hx & _). symmetry. apply not_true_iff_false.
    intros Hall. apply list_elem_of_lookup_2, list_elem_of_In in Hi.
    rewrite (proj1 (forallb_forall _ _) Hall x Hi) in Hx. discriminate.
  - apply list_find_None in E. symmetry. apply forallb_forall. intros x Hx.
    apply list_elem_of_In in Hx. rewrite Forall_forall in E.
    destruct (child_ok x) eqn:Hc; [done|]. by destruct (E x (proj1 (list_elem_of_In _ _) Hx)).
Qed.

(** A screen on display was rendered. *)
Lemma display_render u v : display weatherImages dayName u = Ok v -> render weatherImages dayName u = Ok v.
Proof.
  unfold display. destruct (render _ _ u) as [w|]; cbn; [|done].
  unfold reconcile. destruct (list_find _ _) as [[]|]; congruence.
Qed.

Lemma display_Err u : is_ok (render weatherImages dayName u) = false -> is_ok (display weatherImages dayName u) = false.
Proof. unfold display. by destruct (render _ _ u). Qed.

(** The cards carry the days' average temperatures, in order. *)
Lemma cards_children cur ds cs :
  map_result (render_day dayName cur) ds = Ok cs ->
  map day_avgtemp cs = map (fun d => read d [QDot (nm "day"); QDot (nm "avgtemp_c")]) ds.
Proof.
  intros H%map_result_Forall2. apply Forall2_map_eq. eapply Forall2_impl; [|exact H].
  intros d c Hc. destruct (render_day_ok cur d c Hc) as (_ & _ & Ha).
  by rewrite (read_Ok _ _ _ Ha).
Qed.

Lemma map_snd_imap {A B} (f : A -> B) (g : nat -> nat) (xs : list A) :
  map (fun p => f (snd p)) (imap (fun i x => (g i, x)) xs) = map f xs.
Proof.
  revert g. induction xs as [|x xs IH]; intros g; [done|]. cbn. f_equal.
  apply (IH (fun i => g (S i))).
Qed.

(** The entries of the candidate list carry the candidates' names and
    countries, in order, exactly when the list is shown. *)
Lemma candidates_children u c :
  render_candidates u = Ok c ->
  match c with
  | Some items => concat (map (fun it => [item_name it; item_country it]) items)
  | None => []
  end =
  match locations u with
  | JArr xs =>
      if showSearch u
      then concat (map (fun x => [read x [QDot (nm "name")]; read x [QDot (nm "country")]]) xs)
      else []
  | _ => []
  end.
Proof.
  intros H. destruct c as [items|].
  - destruct (render_candidates_Some u items H) as (xs & Hl & Hall). rewrite Hl.
    rewrite (render_candidates_JArr u xs Hl) in H.
    destruct ((0 <? _)%Z && showSearch u) eqn:Es; [|discriminate].
    apply andb_true_iff in Es as [_ ->]. f_equal.
    rewrite <-(map_snd_imap (fun x => [read x [QDot (nm "name")]; read x [QDot (nm "country")]]) id).
    apply Forall2_map_eq. eapply Forall2_impl; [|exact Hall].
    intros [i x] it Hit. destruct (render_item_ok (length xs) i x) as (it' & Hit' & H1 & H2 & _).
    rewrite Hit in Hit'. injection Hit' as <-. cbn. by rewrite (read_Ok _ _ _ H1), (read_Ok _ _ _ H2).
  - destruct (locations u) as [| | | | |xs|] eqn:Hl; try reflexivity.
    rewrite (render_candidates_JArr u xs Hl) in H. destruct (showSearch u); [|done].
    destruct xs as [|x xs]; [done|].
    assert (Hpos : (0 <? Z.of_nat (length (x :: xs)))%Z = true) by (apply Z.ltb_lt; cbn [length]; lia).
    rewrite Hpos in H. cbn [andb] in H.
    destruct (map_result (render_item _) _); cbn in H; discriminate.
Qed.

(** After a render that completed, the view's data children are the
    values [shown_children] reads off the state. *)
Lemma render_children u v :
  render weatherImages dayName u = Ok v -> view_children v = shown_children u.
Proof.
  intros H. pose proof (candidates_children u _ (render_ok_candidates _ _ H)) as Hcc.
  unfold render in H. destruct_binds H. cbn [v_candidates] in Hcc.
  unfold view_children, shown_children. cbn [v_name v_temp v_condition v_wind v_humidity v_sunrise v_days v_candidates].
  rewrite Hcc. clear Hcc.
  repeat rewrite (read_QDot _ _ _ _ Eb). repeat rewrite (read_QDot _ _ _ _ Eb0).
  rewrite (read_Ok _ _ _ Eb1), (read_Ok _ _ _ Eb4), (read_Ok _ _ _ Eb6), (read_Ok _ _ _ Eb7),
    (read_Ok _ _ _ Eb8), (read_Ok _ _ _ Eb9), (read_Ok _ _ _ Eb10).
  do 2 f_equal. unfold opt_map_call in Eb11.
  destruct (nullish a10) eqn:Hn.
  - injection Eb11 as <-. injection Eb12 as <-. by destruct a10.
  - destruct a10 as [| | | | |ds|]; try discriminate. injection Eb11 as <-.
    destruct (map_result _ _) as [cs|] eqn:Ecs; [|discriminate]. injection Eb12 as <-.
    exact (cards_children _ _ _ Ecs).
Qed.

(** A render that completed, with valid data children, is on display. *)
Lemma display_ok_of u :
  is_ok (render weatherImages dayName u) = true -> forallb child_ok (shown_children u) = true ->
  is_ok (display weatherImages dayName u) = true.
Proof.
  unfold display. destruct (render _ _ u) as [v|] eqn:E; [|done]. intros _ Hc.
  cbn. by rewrite reconcile_ok, (render_children _ _ E).
Qed.

(** The documented leaf types convert and are valid children. *)
Lemma str_leaf_ok v : str_leaf v = true -> convertible v = true /\ child_ok v = true.
Proof. by destruct v. Qed.

Lemma num_leaf_ok v : num_leaf v = true -> child_ok v = true.
Proof. by destruct v. Qed.

(** A forecast of the documented shape passes the render's reads and
    conversions. *)
Lemma documented_fields w :
  documented_forecast w = true ->
  nullish w = false /\ forecast_renderable w = true /\ fields_convertible w = true.
Proof.
  unfold documented_forecast. cbn [forallb]. rewrite !andb_true_r. intros H.
  repeat match goal with H : _ && _ = true |- _ => apply andb_true_iff in H as [? ?] end.
  repeat match goal with H : str_leaf _ = true |- _ => apply str_leaf_ok in H as [? ?] end.
  split; [by apply negb_true_iff|]. split; [done|].
  unfold fields_convertible. repeat (apply andb_true_iff; split); try done.
  by destruct (read w [QDot (nm "forecast"); QDot (nm "forecastday")]) as [| | | | |[|]|].
Qed.

(** ... and its data children, with a documented candidate list, are
    valid. *)
Lemma documented_children u :
  documented_forecast (weather u) = true -> documented_candidates (locations u) = true ->
  forallb child_ok (shown_children u) = true.
Proof.
  unfold documented_forecast, documented_candidates, shown_children. cbn [forallb].
  rewrite !andb_true_r. intros Hw Hl. apply andb_true_iff in Hw as [Hw Hdays].
  repeat match goal with H : _ && _ = true |- _ => apply andb_true_iff in H as [? ?] end.
  rewrite !forallb_app. cbn [forallb].
  repeat match goal with H : str_leaf _ = true |- _ => apply str_leaf_ok in H as [_ ->] end.
  repeat match goal with H : num_leaf _ = true |- _ => rewrite (num_leaf_ok _ H) end.
  cbn [andb]. apply andb_true_iff. split.
  - destruct (read (weather u) [QDot (nm "forecast"); QDot (nm "forecastday")]) as [| | | | |ds|];
      try done.
    rewrite forallb_map_comp. apply forallb_forall. intros d Hd.
    apply num_leaf_ok. exact (proj1 (forallb_forall _ _) Hdays d Hd).
  - destruct (locations u) as [| | | | |xs|]; try done. destruct (showSearch u); [|done].
    rewrite forallb_concat_map. apply forallb_forall. intros x Hx.
    apply (proj1 (forallb_forall _ _) Hl) in Hx. apply andb_true_iff in Hx as [Hn Hc].
    apply str_leaf_ok in Hn as [_ Hn]. apply str_leaf_ok in Hc as [_ Hc]. cbn. by rewrite Hn, Hc.
Qed.
End RenderFacts.

Section RenderClaims.
Context (weatherImages : jsval) (dayName : jsval -> jsstr).

(** A render that completes has evaluated line 122's chain. *)
Lemma render_ok_sunrise u v :
  render weatherImages dayName u = Ok v ->
  chain (weather u) [QDot (nm "forecast"); QDot (nm "forecastday");
                     Dot (KIndex 0); QDot (nm "astro"); QDot (nm "sunrise")] = Ok (v_sunrise v).
Proof. unfold render. intros H. destruct_binds H. done. Qed.

(** C18 (spec section 4.2 transition 1, display before the first
    forecast): while [weather] still holds the initial [[]] of line 13,
    whatever the panel and the candidate list hold, the forecast part of
    the screen shows placeholders: the name and the temperature are
    [undefined], no day card is drawn, and the country line of line 89
    reads [" undefined"] ([" " + location?.country] prints [undefined]).
    The render then completes exactly when the candidate list does, and
    shows what the list renders to. *)
Theorem initial_render u :
  nullish weatherImages = false -> weather u = JArr [] ->
  match render weatherImages dayName u with
  | Ok v => v_name v = JUndefined /\ v_country v = lit " undefined" /\
            v_temp v = JUndefined /\ v_days v = None /\ render_candidates u = Ok (v_candidates v)
  | Err e => render_candidates u = Err e
  end.
Proof.
  intros Hi Hw. destruct (get_not_nullish weatherImages (KName (lit "undefined")) Hi) as [img Himg].
  assert (Hk : get_computed weatherImages JUndefined = Ok img)
    by (unfold get_computed; rewrite Hi; exact Himg).
  unfold render. rewrite Hw.
  bind_ok (eq_refl : get (JArr []) (nm "current") = Ok JUndefined).
  bind_ok (eq_refl : get (JArr []) (nm "location") = Ok JUndefined).
  bind_ok (eq_refl : chain JUndefined [QDot (nm "name")] = Ok JUndefined).
  bind_ok (eq_refl : chain JUndefined [QDot (nm "country")] = Ok JUndefined).
  bind_ok (eq_refl : to_string JUndefined = Ok (lit "undefined")).
  bind_ok (eq_refl : chain JUndefined [QDot (nm "condition"); QDot (nm "text")] = Ok JUndefined).
  bind_ok Hk.
  bind_ok (eq_refl : chain JUndefined [QDot (nm "temp_c")] = Ok JUndefined).
  bind_ok (eq_refl : chain JUndefined [QDot (nm "wind_kph")] = Ok JUndefined).
  bind_ok (eq_refl : chain JUndefined [QDot (nm "humidity")] = Ok JUndefined).
  bind_ok (eq_refl : chain (JArr []) [QDot (nm "forecast"); QDot (nm "forecastday");
                     Dot (KIndex 0); QDot (nm "astro"); QDot (nm "sunrise")] = Ok JUndefined).
  bind_ok (eq_refl : chain (JArr []) [QDot (nm "forecast"); QDot (nm "forecastday")] = Ok JUndefined).
  bind_ok (eq_refl : opt_map_call JUndefined = Ok None).
  destruct (render_candidates u); cbn; auto.
Qed.

(** C19 (line 122): a forecast object without [forecastday] makes the
    render throw: [weather?.forecast?.forecastday[0]] indexes
    [forecastday] with a plain [[0]], where line 139 uses [?.]. *)
Theorem render_forecastday_missing u fc fd :
  nullish (weather u) = false ->
  get (weather u) (nm "forecast") = Ok fc -> nullish fc = false ->
  get fc (nm "forecastday") = Ok fd -> nullish fd = true ->
  is_ok (render weatherImages dayName u) = false.
Proof.
  intros Hw Hf Hfc Hd Hfd. destruct (render weatherImages dayName u) as [v|] eqn:E; [|done].
  apply render_ok_sunrise in E. cbn in E. rewrite Hw, Hf in E. cbn in E.
  rewrite Hfc, Hd in E. cbn in E. by rewrite get_nullish in E.
Qed.
(** C21 (lines 68 and 161-167 with the style sheet of lines 183-260): in
    a completed render the search box's flattened style has [display:
    'none'] exactly when the panel is closed, and a shown candidate entry's
    flattened style has the separating [borderBottomWidth: 2] exactly when
    it is not the last entry. *)
Theorem render_styles u v :
  render weatherImages dayName u = Ok v ->
  (style_prop (v_inputStyle v) "display" = Some (JStr (lit "none")) <-> showSearch u = false) /\
  forall items i it, v_candidates v = Some items -> items !! i = Some it ->
    (style_prop (item_style it) "borderBottomWidth" = Some (JNum 2) <-> S i <> length items).
Proof.
  intros H. unfold render in H. destruct_binds H. split.
  - cbn [v_inputStyle]. destruct (showSearch u); vm_compute; intuition congruence.
  - cbn [v_candidates]. intros items i it -> Hi.
    destruct (render_candidates_Some u items Eb13) as (xs & _ & Hall).
    destruct (indexed_Forall2_lookup _ _ _ _ _ Hall Hi) as (-> & x & _ & Hr).
    unfold render_item in Hr. destruct_binds Hr. cbn [item_style].
    assert (Hb : style_prop (JArr [style_of "locationItem"; style_of "locationItemBorder"])
                   "borderBottomWidth" = Some (JNum 2)) by (vm_compute; reflexivity).
    assert (Hn : style_prop (JArr [style_of "locationItem"; JStr []])
                   "borderBottomWidth" = None) by (vm_compute; reflexivity).
    change (match length xs with 0 => false | S m' => i =? m' end) with (S i =? length xs).
    destruct (S i =? length xs) eqn:E; cbn [negb];
      [rewrite Hn; apply Nat.eqb_eq in E | rewrite Hb; apply Nat.eqb_neq in E];
      intuition congruence.
Qed.

(** C22 (lines 157-173): with the panel open and a non-empty array of
    candidates, the list is shown with one entry per candidate, in order,
    each showing the candidate's [name] and [country] (read with [?.]), and
    every entry but the last has the separating border. *)
Theorem render_candidates_entries u xs :
  locations u = JArr xs -> xs <> [] -> showSearch u = true ->
  exists items, render_candidates u = Ok (Some items) /\ length items = length xs /\
    forall i loc, xs !! i = Some loc -> exists it, items !! i = Some it /\
      chain loc [QDot (nm "name")] = Ok (item_name it) /\
      chain loc [QDot (nm "country")] = Ok (item_country it) /\
      item_border it = negb (Nat.eqb (S i) (length xs)).
Proof.
  intros Hl Hne Hs. rewrite (render_candidates_JArr u xs Hl).
  replace ((0 <? Z.of_nat (length xs))%Z && showSearch u) with true
    by (rewrite Hs; destruct xs; [done|reflexivity]).
  destruct (map_result_total (render_item (length xs)) (indexed xs)) as (items & Hmap & Hall).
  { intros [i loc] _. destruct (render_item_ok (length xs) i loc) as (it & Hit & _). eauto. }
  exists items. rewrite Hmap. split; [reflexivity|]. split.
  - apply Forall2_length in Hall. unfold indexed in Hall. by rewrite <-Hall, length_imap.
  - intros i loc Hi.
    destruct (Forall2_lookup_l _ _ _ i (i, loc) Hall) as (it & Hit & Hr);
      [by unfold indexed; rewrite list_lookup_imap, Hi|].
    destruct (render_item_ok (length xs) i loc) as (it' & Hit' & H1 & H2 & H3).
    rewrite Hr in Hit'. injection Hit' as <-. eauto.
Qed.

(** C23 (lines 139-150): when the forecast's [forecastday] is an array,
    a render that completes shows one card per day, in order: the
    weekday of the day's [date], the day's average temperature, and, on
    every card alike, the icon of the [current] condition rather than the
    day's own condition. *)
Theorem render_day_cards u v ds :
  render weatherImages dayName u = Ok v ->
  chain (weather u) [QDot (nm "forecast"); QDot (nm "forecastday")] = Ok (JArr ds) ->
  exists cards icon, v_days v = Some cards /\
    chain (weather u) [QDot (nm "current"); QDot (nm "condition"); QDot (nm "icon")] = Ok icon /\
    Forall2 (fun d c =>
      (exists date, get d (nm "date") = Ok date /\ day_label c = dayName date) /\
      day_icon c = lit "https:" ++ to_str icon /\
      chain d [QDot (nm "day"); QDot (nm "avgtemp_c")] = Ok (day_avgtemp c)) ds cards.
Proof.
  intros H Hfd. destruct (render_ok_days weatherImages dayName u v H)
    as (current & fd & Hc & Hfd' & Hdays).
  rewrite Hfd in Hfd'. injection Hfd' as <-. cbn in Hdays.
  destruct (map_result (render_day dayName current) ds) as [cards|] eqn:Em; [|done].
  injection Hdays as <-. apply map_result_Forall2 in Em.
  optional_chain current [QDot (nm "condition"); QDot (nm "icon")] icon Ei.
  exists cards, icon. split; [done|]. split; [by rewrite (chain_QDot_Ok _ _ _ _ Hc)|].
  eapply Forall2_impl; [|exact Em]. intros d c Hd.
  destruct (render_day_ok dayName current d c Hd) as (Hdate & (icon' & Hi' & ->) & Havg).
  rewrite Ei in Hi'. injection Hi' as <-. auto.
Qed.

(** C24 (line 141): a nullish entry of an array [forecastday] makes the
    render throw: [new Date(item.date)] reads [date] with a plain [.]. *)
Theorem render_day_nullish u ds d :
  chain (weather u) [QDot (nm "forecast"); QDot (nm "forecastday")] = Ok (JArr ds) ->
  d ∈ ds -> nullish d = true ->
  is_ok (render weatherImages dayName u) = false.
Proof.
  intros Hfd Hd Hn. destruct (render weatherImages dayName u) as [v|] eqn:E; [|done].
  destruct (render_ok_days weatherImages dayName u v E) as (current & fd & _ & Hfd' & Hdays).
  rewrite Hfd in Hfd'. injection Hfd' as <-. cbn in Hdays.
  assert (Hday : is_ok (map_result (render_day dayName current) ds) = false).
  { apply (map_result_Err _ _ d (ReadOfNullish d (nm "date")) Hd).
    unfold render_day. by rewrite get_nullish. }
  destruct (map_result (render_day dayName current) ds); done.
Qed.

(** C26 (lines 54-181 with React's mount; the converse of C19, C24 and
    C28): the screen is on display (the render completes and React mounts
    the view) whenever [weatherImages] is not nullish, the forecast body
    has the documented shape (any field may be absent, the present ones
    have the provider's types) and the candidate list is an array of
    candidates with string names and countries. *)
Theorem display_total u :
  nullish weatherImages = false -> documented_forecast (weather u) = true ->
  documented_candidates (locations u) = true ->
  is_ok (display weatherImages dayName u) = true.
Proof.
  intros Hi Hw Hl. destruct (documented_fields _ Hw) as (Hn & Hr & Hc).
  apply display_ok_of; [|by apply documented_children].
  apply render_ok_of; [done..|].
  destruct (locations u) as [| | | | |xs|] eqn:E; try (cbn in Hl; discriminate Hl).
  by destruct (render_candidates_total u xs E) as [c ->].
Qed.

(** C28 (lines 157-158): a search body that is a non-empty string (axios
    hands over the raw text of a response that is not JSON) makes the
    render throw while the panel is open: [locations.length > 0] holds,
    and strings have no [map]. *)
Theorem render_string_locations u str :
  locations u = JStr str -> str <> [] -> showSearch u = true ->
  is_ok (render weatherImages dayName u) = false.
Proof.
  intros Hl Hne Hs. destruct (render weatherImages dayName u) as [v|] eqn:E; [|done].
  apply render_ok_candidates in E. unfold render_candidates in E. rewrite Hl, Hs in E.
  assert (Hlen : get (JStr str) (nm "length") = Ok (JNum (Z.of_nat (length str))))
    by reflexivity.
  rewrite Hlen, result_bind_Ok, gt_zero_JNum, result_bind_Ok in E.
  replace ((0 <? Z.of_nat (length str))%Z && true) with true in E
    by (destruct str; [done|reflexivity]).
  discriminate E.
Qed.
End RenderClaims.

Lemma initial_render_witness :
  exists v, render (JObj []) (fun _ => []) (mk_ui true (JArr [JObj [(lit "name", JStr (lit "London"))]]) (JArr []))
              = Ok v /\ v_country v = lit " undefined" /\ is_Some (v_candidates v).
Proof.
  pose proof (initial_render (JObj []) (fun _ => [])
                (mk_ui true (JArr [JObj [(lit "name", JStr (lit "London"))]]) (JArr [])) eq_refl eq_refl) as H.
  destruct (render _ _ _) as [v|] eqn:E; [|vm_compute in H; discriminate H].
  destruct H as (_ & Hc & _ & _ & Hcand). exists v. split; [done|]. split; [done|].
  destruct v as [? ? ? ? ? ? ? ? ? ? cands]. cbn [v_candidates] in *.
  vm_compute in Hcand. injection Hcand as <-. eexists; reflexivity.
Defined.

Lemma render_forecastday_missing_witness :
  is_ok (render (JObj []) (fun _ => []) (mk_ui false (JArr []) body_without_days)) = false.
Proof.
  apply (render_forecastday_missing (JObj []) (fun _ => []) _ (JObj []) JUndefined);
    reflexivity.
Defined.

Lemma render_styles_witness :
  exists v items it, render (JObj []) (fun _ => []) (mk_ui true (JArr [JObj []; JObj []]) body_two_days) = Ok v /\
    v_candidates v = Some items /\ items !! 0 = Some it /\
    style_prop (item_style it) "borderBottomWidth" = Some (JNum 2).
Proof.
  do 3 eexists. split; [reflexivity|]. split; [reflexivity|]. split; [reflexivity|].
  apply (proj2 (render_styles (JObj []) (fun _ => [])
                  (mk_ui true (JArr [JObj []; JObj []]) body_two_days) _ eq_refl) _ 0 _ eq_refl eq_refl).
  simpl. lia.
Defined.

Lemma render_candidates_entries_witness :
  exists items, render_candidates (mk_ui true (JArr [JObj [(lit "name", JStr (lit "London"))]])
                                   (JArr [])) = Ok (Some items) /\ length items = 1.
Proof.
  destruct (render_candidates_entries (mk_ui true (JArr [JObj [(lit "name", JStr (lit "London"))]])
                                        (JArr [])) [JObj [(lit "name", JStr (lit "London"))]])
    as (items & H1 & H2 & _); [reflexivity|discriminate|reflexivity|].
  exists items. split; [exact H1|exact H2].
Defined.

Lemma render_day_cards_witness :
  exists v cards icon, render (JObj []) (fun _ => []) (mk_ui false (JArr []) body_two_days) = Ok v /\
    v_days v = Some cards /\ length cards = 2 /\
    Forall (fun c => day_icon c = lit "https:" ++ to_str icon) cards.
Proof.
  assert (exists v, render (JObj []) (fun _ => []) (mk_ui false (JArr []) body_two_days) = Ok v)
    as [v Hv] by (eexists; reflexivity).
  destruct (render_day_cards (JObj []) (fun _ => []) (mk_ui false (JArr []) body_two_days) v
              _ Hv eq_refl) as (cards & icon & Hc & _ & Hall).
  exists v, cards, icon. split; [exact Hv|]. split; [exact Hc|].
  split; [by apply Forall2_length in Hall|].
  apply Forall_forall. intros c Hin. apply list_elem_of_In in Hin.
  apply list_elem_of_lookup in Hin as [i Hi].
  destruct (Forall2_lookup_r _ _ _ _ _ Hall Hi) as (d & _ & _ & Hicon & _). exact Hicon.
Defined.

Lemma render_day_nullish_witness :
  is_ok (render (JObj []) (fun _ => []) (mk_ui false (JArr []) body_null_day)) = false.
Proof.
  apply (render_day_nullish (JObj []) (fun _ => []) _ [JNull] JNull);
    [reflexivity|apply list_elem_of_here|reflexivity].
Defined.

Lemma display_total_witness :
  is_ok (display (JObj []) (fun _ => [])
           (mk_ui true (JArr [JObj [(lit "name", JStr (lit "London"))]; JNull]) body_two_days)) = true.
Proof. apply display_total; reflexivity. Defined.

Lemma render_string_locations_witness :
  is_ok (render (JObj []) (fun _ => []) (mk_ui true (JStr (lit "Bad Gateway")) body_two_days)) = false.
Proof. apply (render_string_locations _ _ _ (lit "Bad Gateway")); [reflexivity|discriminate|reflexivity]. Defined.
