(* ===== verification/RenderSafety.v ===== *)
(** * Exactly when the screen throws

    [renders] is the reference predicate for the component's render: a
    value-level description of the states on which the JSX of lines
    54-181 evaluates without a TypeError.  [displays] adds React's mount:
    every data child of a [<Text>] is a valid React child.  The theorem
    [display_ok_iff] shows that [Render.display] completes exactly on the
    states of [displays]; the theorems of [Render] about single failures
    (a nullish [weather], a missing [forecastday], a nullish day, a string
    as the candidate list) are instances of it. *)

From S2P Require Import Prelude JsValue Coercion Render.

(** What [locations.length] reads when [locations] is not nullish. *)
Definition locations_length (v : jsval) : jsval :=
  match v with
  | JStr s => JNum (Z.of_nat (length s))
  | JArr xs => JNum (Z.of_nat (length xs))
  | JObj ps => default JUndefined (obj_get ps length_key)
  | _ => JUndefined
  end.

(** The candidate list renders: [locations] is not nullish, its
    [length] compares with [0] without throwing, and when the list is
    shown it is an array. *)
Definition candidates_renderable (u : ui) : bool :=
  match locations u with
  | JUndefined | JNull => false
  | JArr _ => true
  | l => match gt_zero (locations_length l) with
         | Ok b => negb (b && showSearch u)
         | Err _ => false
         end
  end.

(** The states the component renders. *)
Definition renders (weatherImages : jsval) (u : ui) : bool :=
  negb (nullish (weather u)) && negb (nullish weatherImages) &&
  forecast_renderable (weather u) && fields_convertible (weather u) &&
  candidates_renderable u.

(** The states the screen displays: rendered, and mounted by React. *)
Definition displays (weatherImages : jsval) (u : ui) : bool :=
  renders weatherImages u && forallb child_ok (shown_children u).

(** A forecast body whose [forecastday] is a string: line 139 calls
    [map] on it and throws. *)
Definition demo_forecast_string : jsval :=
  JObj [(lit "forecast", JObj [(lit "forecastday", JStr (lit "n/a"))])].

(** A forecast body whose [location.name] is an object: the render
    completes, React's mount throws at line 88. *)
Definition demo_object_name : jsval :=
  JObj [(lit "location", JObj [(lit "name", JObj [(lit "en", JStr (lit "Paris"))])])].

(** A search body that is an object whose [length] is the array [[1]]:
    [[1] > 0] holds, and the object has no [map]. *)
Definition demo_length_array : jsval := JObj [(lit "length", JArr [JNum 1])].

Section RenderSafety.
Context (weatherImages : jsval) (dayName : jsval -> jsstr).

(** The candidate list throws exactly outside [candidates_renderable]. *)
Lemma render_candidates_is_ok u :
  is_ok (render_candidates u) = candidates_renderable u.
Proof.
  unfold candidates_renderable. destruct (locations u) as [| |b|n|str|xs|ps] eqn:Hl.
  6: by destruct (render_candidates_total u xs Hl) as [c ->].
  all: unfold render_candidates; rewrite Hl; cbn [get locations_length];
    rewrite ?result_bind_Ok; try reflexivity.
  all: try (rewrite decide_True by reflexivity).
  all: destruct (gt_zero _) as [b'|e]; cbn; [|reflexivity].
  all: by destruct (b' && showSearch u).
Qed.

(** A card that renders converted its date and the current icon. *)
Lemma render_day_converts cur d c :
  render_day dayName cur d = Ok c ->
  convertible (read d [Dot (nm "date")]) = true /\
  convertible (read cur [QDot (nm "condition"); QDot (nm "icon")]) = true.
Proof.
  unfold render_day. intros H. destruct_binds H. split.
  - unfold read. cbn [chain]. rewrite Eb. cbn. by eapply to_primitive_Ok_string.
  - unfold read. rewrite Eb1. unfold convertible. by rewrite Eb2.
Qed.

(** The reads of lines 122 and 139 that completed leave a renderable
    forecast part: [forecastday] is nullish only under a nullish
    [forecast], it is then an array, and no card threw. *)
Lemma forecast_renderable_of w cur sr fd days cards :
  nullish w = false ->
  chain w [QDot (nm "forecast"); QDot (nm "forecastday");
           Dot (KIndex 0); QDot (nm "astro"); QDot (nm "sunrise")] = Ok sr ->
  chain w [QDot (nm "forecast"); QDot (nm "forecastday")] = Ok fd ->
  opt_map_call fd = Ok days ->
  match days with
  | Some items => Some <$> map_result (render_day dayName cur) items
  | None => mret None
  end = Ok cards ->
  forecast_renderable w = true.
Proof.
  intros Hw Hsr Hfd Hdays Hcards.
  destruct (get_not_nullish w (nm "forecast") Hw) as [fc Hfc].
  unfold forecast_renderable. rewrite Hfc.
  destruct (nullish fc) eqn:Hn; [done|].
  rewrite (chain_QDot_Ok _ _ _ _ Hfc) in Hsr. rewrite (chain_QDot_Ok _ _ _ _ Hfc) in Hfd.
  destruct (get_not_nullish fc (nm "forecastday") Hn) as [fdv Hg].
  rewrite (chain_QDot_Ok _ _ _ _ Hg) in Hsr. rewrite (chain_QDot_Ok _ _ _ _ Hg) in Hfd. rewrite Hg.
  injection Hfd as ->. cbn [chain] in Hsr.
  destruct (get fd (KIndex 0)) eqn:H0; [|discriminate].
  pose proof (get_Ok_not_nullish _ _ _ H0) as Hfdn.
  unfold opt_map_call in Hdays. rewrite Hfdn in Hdays.
  destruct fd as [| | | | |ds|]; try discriminate. injection Hdays as <-.
  destruct (map_result (render_day dayName cur) ds) as [cs|] eqn:Hm; [|discriminate].
  apply map_result_Forall2 in Hm.
  apply forallb_forall. intros d Hd. apply list_elem_of_In, list_elem_of_lookup in Hd as [i Hi].
  destruct (Forall2_lookup_l _ _ _ _ _ Hm Hi) as (c & _ & Hc).
  destruct (render_day_ok dayName cur d c Hc) as ((date & Hdate & _) & _).
  rewrite (get_Ok_not_nullish _ _ _ Hdate). cbn.
  exact (proj1 (render_day_converts cur d c Hc)).
Qed.

(** A render that completes was on a state of [renders]. *)
Lemma renders_of_render u v :
  render weatherImages dayName u = Ok v -> renders weatherImages u = true.
Proof.
  intros H. unfold render in H. destruct_binds H.
  destruct (get_computed_Ok _ _ _ Eb5) as [Himg Htext].
  unfold renders. rewrite (get_Ok_not_nullish _ _ _ Eb), Himg.
  rewrite (forecast_renderable_of _ _ _ _ _ _ (get_Ok_not_nullish _ _ _ Eb) Eb9 Eb10 Eb11 Eb12).
  rewrite <-render_candidates_is_ok, Eb13. rewrite !andb_true_r. cbn [negb andb].
  unfold fields_convertible. rewrite (read_QDot _ _ _ _ Eb0), !(read_QDot _ _ _ _ Eb).
  rewrite (read_Ok _ _ _ Eb2), (read_Ok _ _ _ Eb4), (read_Ok _ _ _ Eb10).
  unfold convertible at 1 2. rewrite Eb3, Htext. cbn [is_ok andb].
  destruct a10 as [| | | | |[|d ds]|]; try done. cbn in Eb11. injection Eb11 as <-.
  destruct (map_result _ _) as [cs|] eqn:Ecs; [|discriminate].
  cbn in Ecs. destruct (render_day dayName a d) as [c|] eqn:Ed; [|discriminate].
  exact (proj2 (render_day_converts a d c Ed)).
Qed.

(** The component renders exactly on the states of [renders]. *)
Lemma render_ok_iff u :
  is_ok (render weatherImages dayName u) = renders weatherImages u.
Proof.
  destruct (render weatherImages dayName u) as [v|] eqn:E.
  - symmetry. by eapply renders_of_render.
  - destruct (renders weatherImages u) eqn:Hr; [|done].
    unfold renders in Hr.
    repeat match goal with H : _ && _ = true |- _ => apply andb_true_iff in H as [? ?] end.
    repeat match goal with H : negb _ = true |- _ => apply negb_true_iff in H end.
    rewrite <-render_candidates_is_ok in *.
    by rewrite <-E, render_ok_of.
Qed.

(** C30 (lines 54-181 with React's mount, equivalence with the
    reference predicate): the screen is on display exactly on the states
    of [displays]: [weather] and [weatherImages] not nullish, the forecast
    part renderable ([forecast] nullish, or an array [forecastday] of days
    that are not nullish and whose [date] converts), the country, the
    condition text and (when a card is drawn) the icon convertible to
    strings, the candidate list not nullish, its [length] comparable with
    [0], and an array whenever it is shown; and every value a [<Text>]
    shows is a valid React child (no object). *)
Theorem display_ok_iff u :
  is_ok (display weatherImages dayName u) = displays weatherImages u.
Proof.
  unfold displays. rewrite <-render_ok_iff. unfold display.
  destruct (render weatherImages dayName u) as [v|] eqn:E; [|done].
  cbn. by rewrite reconcile_ok, (render_children _ _ _ _ E).
Qed.
End RenderSafety.

Lemma display_ok_iff_witness :
  is_ok (display (JObj []) (fun _ => []) (mk_ui true (JArr []) demo_forecast_string)) = false /\
  is_ok (display (JObj []) (fun _ => []) (mk_ui false (JArr []) demo_object_name)) = false /\
  is_ok (display (JObj []) (fun _ => []) (mk_ui true demo_length_array body_two_days)) = false /\
  is_ok (display (JObj []) (fun _ => []) (mk_ui true (JArr []) body_two_days)) = true.
Proof.
  rewrite !(display_ok_iff (JObj []) (fun _ => [])).
  split; [|split; [|split]]; vm_compute; reflexivity.
Defined.
