(* ===== verification/Debounce.v ===== *)
(** * lodash's trailing-edge [debounce]

    Line 52 of [HomeScreens.js] wraps [handleSearch] in
    [debounce(handleSearch, 1200)] from lodash, which is a library and not
    part of the repository; this file models it from the spec (section
    4.2, transition 3, and section 9): a call records its arguments and
    (re)arms a single timer for [wait] milliseconds after the call; when
    the timer expires the function runs once with the last arguments.
    lodash's intermediate wake-ups of [timerExpired] (which re-arm the
    timer for the remaining wait) are not observable and are folded into
    the deadline. *)

From S2P Require Import Prelude.

Section Debounce.
Context {A : Type}.

(** The wait of line 52. *)
Definition wait : Z := 1200.

(** The pending invocation: its deadline and the last arguments. *)
Record debouncer : Type := mk_debouncer { timer : option (Z * A) }.

Definition idle : debouncer := mk_debouncer None.

(** The debounced function called at time [t] with [a]: the pending
    invocation, if any, is replaced. *)
Definition debounced (t : Z) (a : A) (d : debouncer) : debouncer :=
  mk_debouncer (Some ((t + wait)%Z, a)).

(** An event at time [t] comes before the timer fires when [t] is not
    after the deadline. *)
Definition allows (t : Z) (d : debouncer) : bool :=
  match timer d with
  | Some (deadline, _) => bool_decide (t <= deadline)%Z
  | None => true
  end.

(** The timer expires: the deadline, the arguments of the invocation,
    and the debouncer left idle. *)
Definition trailing_edge (d : debouncer) : option (Z * A * debouncer) :=
  match timer d with
  | Some (deadline, a) => Some (deadline, a, idle)
  | None => None
  end.

End Debounce.

Arguments debouncer : clear implicits.
