(* ===== verification/HomeScreen.v ===== *)
(** * The resolution flow: the handlers of [HomeScreens.js] as a state machine

    [state] holds the React state ([ui], from [Render]) and what the
    runtime keeps around it: whether the mount effect ran, the clock, the
    debouncer of [handleTextDebounce], the requests in flight with the
    continuation each will run, every request sent, the console, and the
    errors nobody caught.  [event] lists what can happen: the mount effect,
    the three user gestures of the JSX, the debounce timer, and the network
    settling a request.  [step] is one event, each handler a Definition of
    its own ([handleLocation], [handleSearch], [fetchMyweatherData],
    [resume] for the code after a request settles).  The Transport is used
    only through its contract [WeatherApi]. *)

From S2P Require Import Prelude JsValue Transport Render Debounce.

(** What runs when a request settles. *)
Inductive kont : Type :=
| KMount     (* fetchMyweatherData: .then(data => setWeather(data)), lines 47-49 *)
| KSelect    (* handleLocation: .then(data => { setWeather(data); console.log }), lines 21-24 *)
| KSearch.   (* handleSearch: after await, inside try/catch, lines 31-35 *)

Record inflight : Type := mk_inflight { rid : nat; req : request; kont_of : kont }.

Record state : Type := mk_state {
  ui_of : ui;
  mounted : bool;
  now : Z;
  search_timer : debouncer jsstr;
  inflight_reqs : list inflight;
  next_rid : nat;
  sent : list (Z * request);
  logs : list log_entry;
  uncaught : list jserror
}.

Inductive event : Type :=
| Mount                        (* useEffect(() => fetchMyweatherData(), []) *)
| PressSearch                  (* line 78: onPress={() => toggleSearch(!showSearch)} *)
| ChangeText (text : jsstr)    (* line 70: onChangeText={handleTextDebounce} *)
| PressLocation (index : nat)  (* line 165: onPress={() => handleLocation(loc)} *)
| TimerFire                    (* the timer of handleTextDebounce expires *)
| Settle (r : nat) (o : outcome).  (* axios settles request r *)

(** ** Elementary state changes *)

Definition map_ui (f : ui -> ui) (s : state) : state :=
  mk_state (f (ui_of s)) (mounted s) (now s) (search_timer s) (inflight_reqs s)
           (next_rid s) (sent s) (logs s) (uncaught s).

(** The three React setters. *)
Definition setlocations (v : jsval) : state -> state :=
  map_ui (fun u => mk_ui (showSearch u) v (weather u)).
Definition toggleSearch (b : bool) : state -> state :=
  map_ui (fun u => mk_ui b (locations u) (weather u)).
Definition setWeather (v : jsval) : state -> state :=
  map_ui (fun u => mk_ui (showSearch u) (locations u) v).

Definition console (e : log_entry) (s : state) : state :=
  mk_state (ui_of s) (mounted s) (now s) (search_timer s) (inflight_reqs s)
           (next_rid s) (sent s) (logs s ++ [e]) (uncaught s).

Definition console_all (es : list log_entry) (s : state) : state :=
  mk_state (ui_of s) (mounted s) (now s) (search_timer s) (inflight_reqs s)
           (next_rid s) (sent s) (logs s ++ es) (uncaught s).

Definition throw (e : jserror) (s : state) : state :=
  mk_state (ui_of s) (mounted s) (now s) (search_timer s) (inflight_reqs s)
           (next_rid s) (sent s) (logs s) (uncaught s ++ [e]).

(** Send a request: it gets the next id, stays in flight with its
    continuation, and is recorded with the time it was sent. *)
Definition issue (r : request) (k : kont) (s : state) : state :=
  mk_state (ui_of s) (mounted s) (now s) (search_timer s)
           (inflight_reqs s ++ [mk_inflight (next_rid s) r k])
           (S (next_rid s)) (sent s ++ [(now s, r)]) (logs s) (uncaught s).

Definition set_timer (d : debouncer jsstr) (s : state) : state :=
  mk_state (ui_of s) (mounted s) (now s) d (inflight_reqs s)
           (next_rid s) (sent s) (logs s) (uncaught s).

Definition set_now (t : Z) (s : state) : state :=
  mk_state (ui_of s) (mounted s) t (search_timer s) (inflight_reqs s)
           (next_rid s) (sent s) (logs s) (uncaught s).

Definition set_mounted (s : state) : state :=
  mk_state (ui_of s) true (now s) (search_timer s) (inflight_reqs s)
           (next_rid s) (sent s) (logs s) (uncaught s).

Definition set_inflight (l : list inflight) (s : state) : state :=
  mk_state (ui_of s) (mounted s) (now s) (search_timer s) l
           (next_rid s) (sent s) (logs s) (uncaught s).

(** Take request [r] out of the in-flight list. *)
Definition take_inflight (r : nat) (s : state) : option (inflight * state) :=
  match list_find (fun f => rid f = r) (inflight_reqs s) with
  | Some (i, f) => Some (f, set_inflight (delete i (inflight_reqs s)) s)
  | None => None
  end.

(** The initial state: lines 11-13, nothing mounted, nothing sent. *)
Definition init : state := mk_state ui_init false 0 idle [] 0 [] [] [].

Section Screen.
Context `{api : WeatherApi}.
Context (weatherImages : jsval) (dayName : jsval -> jsstr).

(** The forecast horizon of lines 20 and 46: the string ['7']. *)
Definition seven : jsval := JStr (lit "7").

(** Lines 15-25.  The two setters run before [loc.name] is read: when
    that read throws, they have taken effect and no request is sent. *)
Definition handleLocation (loc : jsval) (s : state) : state :=
  let s := console (LogLine (lit "location: ") (ThrownValue loc)) s in
  let s := setlocations (JArr []) s in
  let s := toggleSearch false s in
  match get loc (nm "name") with
  | Ok name => issue (api_forecast (mk_params name seven)) KSelect s
  | Err e => throw e s
  end.

(** Lines 28-37, up to the [await]: the text from the input is a string,
    so [value.length] is its number of code units. *)
Definition handleSearch (value : jsstr) (s : state) : state :=
  if bool_decide (2 < length value) then
    issue (api_location (mk_params (JStr value) JUndefined)) KSearch s
  else s.

(** Lines 43-50. *)
Definition fetchMyweatherData (s : state) : state :=
  issue (api_forecast (mk_params (JStr (lit "Islamabad")) seven)) KMount s.

(** Lines 47-49: [fetchMyweatherData]'s [.then(data => setWeather(data))];
    there is no [.catch], so a rejection would go unhandled. *)
Definition then_mount (st : settlement) (s : state) : state :=
  match st with
  | Fulfilled data => setWeather data s
  | RejectedWith e => throw (UnhandledRejection e) s
  end.

(** Lines 21-24: [handleLocation]'s [.then]; no [.catch] either. *)
Definition then_select (st : settlement) (s : state) : state :=
  match st with
  | Fulfilled data =>
      console (LogLine (lit "got forecase: ") (ThrownValue data)) (setWeather data s)
  | RejectedWith e => throw (UnhandledRejection e) s
  end.

(** Lines 31-35: [handleSearch] after its [await], inside the [try]:
    [setlocations(data)], or the [catch] logging the rejection. *)
Definition after_search (st : settlement) (s : state) : state :=
  match st with
  | Fulfilled data => setlocations data s
  | RejectedWith e => console (ErrorLine (lit "Error fetching location:") (ThrownValue e)) s
  end.

(** The code that runs once a request's promise has settled. *)
Definition resume (k : kont) : settlement -> state -> state :=
  match k with
  | KMount => then_mount
  | KSelect => then_select
  | KSearch => after_search
  end.

(** The candidates on screen, when the list is rendered: the elements of
    [locations] behind the entries of lines 159-173. *)
Definition pressable (s : state) : option (list jsval) :=
  match display weatherImages dayName (ui_of s) with
  | Ok v =>
      match v_candidates v, locations (ui_of s) with
      | Some _, JArr xs => Some xs
      | _, _ => None
      end
  | Err _ => None
  end.

(** The screen is on display: neither its render nor React's mount
    threw. *)
Definition on_screen (s : state) : bool :=
  is_ok (display weatherImages dayName (ui_of s)).

(** One event at time [t].  Events come in time order and none comes
    after a pending debounce deadline; user gestures need the screen on
    display, typing needs the input box shown (line 68). *)
Definition guard (s : state) (t : Z) : bool :=
  bool_decide (now s <= t)%Z && allows t (search_timer s).

Definition step (s : state) (t : Z) (e : event) : option state :=
  if negb (guard s t) then None else
  let s0 := set_now t s in
  match e with
  | Mount => if mounted s then None else Some (fetchMyweatherData (set_mounted s0))
  | PressSearch =>
      if on_screen s then Some (toggleSearch (negb (showSearch (ui_of s))) s0) else None
  | ChangeText text =>
      if on_screen s && showSearch (ui_of s)
      then Some (set_timer (debounced t text (search_timer s)) s0) else None
  | PressLocation i =>
      xs ← pressable s; loc ← xs !! i; Some (handleLocation loc s0)
  | TimerFire =>
      match trailing_edge (search_timer s) with
      | Some (deadline, value, d) =>
          if bool_decide (t = deadline) then Some (handleSearch value (set_timer d s0))
          else None
      | None => None
      end
  | Settle r o =>
      '(f, s1) ← take_inflight r s0;
      Some (resume (kont_of f) (fst (api_settle o)) (console_all (snd (api_settle o)) s1))
  end.

(** A run of timed events. *)
Fixpoint run (s : state) (es : list (Z * event)) : option state :=
  match es with
  | [] => Some s
  | (t, e) :: es' => s' ← step s t e; run s' es'
  end.

(** The states the screen can reach from [init]. *)
Inductive reachable : state -> Prop :=
  | reachable_init : reachable init
  | reachable_step s t e s' : reachable s -> step s t e = Some s' -> reachable s'.
End Screen.

(** ** Bursts of keystrokes *)

(** Keystrokes as timed [ChangeText] events. *)
Definition typing (ks : list (Z * jsstr)) : list (Z * event) :=
  map (fun k => (fst k, ChangeText (snd k))) ks.

(** Each keystroke comes at most [wait] after the previous one, [t]
    being the time of the first. *)
Fixpoint within_wait (t : Z) (ks : list (Z * jsstr)) : Prop :=
  match ks with
  | [] => True
  | (t', _) :: ks' => (t <= t' <= t + wait)%Z /\ within_wait t' ks'
  end.

(** The last keystroke of a burst starting with [k]. *)
Fixpoint final_key (k : Z * jsstr) (ks : list (Z * jsstr)) : Z * jsstr :=
  match ks with
  | [] => k
  | k' :: ks' => final_key k' ks'
  end.

(** ** Concrete inputs for the witnesses

    A key, an image table, a weekday formatter, a forecast body whose
    [current.temp_c] is 21 (the spec's startup scenario) and a candidate
    [{name: "London", country: "UK"}]. *)

Definition demo_images : jsval := JObj [(lit "Sunny", JStr (lit "sun.png"))].
Definition demo_dayName (d : jsval) : jsstr := lit "Monday".
Definition demo_api : WeatherApi := weather_api demo_key.

Definition fixture_forecast : jsval :=
  JObj [(lit "location", JObj [(lit "name", JStr (lit "Islamabad"));
                               (lit "country", JStr (lit "Pakistan"))]);
        (lit "current", JObj [(lit "temp_c", JNum 21);
                              (lit "condition", JObj [(lit "text", JStr (lit "Sunny"));
                                                      (lit "icon", JStr (lit "//sun.png"))])]);
        (lit "forecast", JObj [(lit "forecastday",
           JArr [JObj [(lit "date", JStr (lit "2024-01-01"));
                       (lit "day", JObj [(lit "avgtemp_c", JNum 20)]);
                       (lit "astro", JObj [(lit "sunrise", JStr (lit "06:55 AM"))])]])])].

Definition london : jsval := JObj [(lit "name", JStr (lit "London")); (lit "country", JStr (lit "UK"))].
Definition londonderry : jsval :=
  JObj [(lit "name", JStr (lit "Londonderry")); (lit "country", JStr (lit "UK"))].

(** Mount, the forecast arrives, the panel opens, "L", "Lo", "Lon" are
    typed, the timer fires at 1240 and the search returns [[london]]. *)
Definition demo_events : list (Z * event) :=
  [(0, Mount); (5, Settle 0 (Resolved (response_with fixture_forecast)));
   (10, PressSearch); (20, ChangeText (lit "L")); (30, ChangeText (lit "Lo"));
   (40, ChangeText (lit "Lon")); (1240, TimerFire);
   (1300, Settle 1 (Resolved (response_with (JArr [london]))))]%Z.

Definition demo_state : state :=
  default init (run (api:=demo_api) demo_images demo_dayName init demo_events).

(** The states of the demo run after its first [n] events. *)
Definition demo_after (n : nat) : state :=
  default init (run (api:=demo_api) demo_images demo_dayName init (take n demo_events)).

(** The demo run whose search returns a [null] candidate before London. *)
Definition null_candidate_state : state :=
  default init (run (api:=demo_api) demo_images demo_dayName init
                    (take 7 demo_events ++
                     [(1300, Settle 1 (Resolved (response_with (JArr [JNull; london]))))]%Z)).

(** The startup forecast (id 0) still in flight when London is selected
    (id 2). *)
Definition stale_forecast_state : state :=
  default init (run (api:=demo_api) demo_images demo_dayName init
                    [(0, Mount); (10, PressSearch); (20, ChangeText (lit "Lon"));
                     (1220, TimerFire); (1300, Settle 1 (Resolved (response_with (JArr [london]))));
                     (1400, PressLocation 0)]%Z).

(** Two searches in flight: "Lon" (id 1) and "Lond" (id 2). *)
Definition race_state : state :=
  default init (run (api:=demo_api) demo_images demo_dayName init
                    (take 7 demo_events ++ [(1250, ChangeText (lit "Lond")); (2450, TimerFire)]%Z)).

(** ** Theorems *)

Section Theorems.
Context `{api : WeatherApi}.
Context (weatherImages : jsval) (dayName : jsval -> jsstr).

Local Abbreviation step := (step weatherImages dayName).
Local Abbreviation on_screen := (on_screen weatherImages dayName).
Local Abbreviation pressable := (pressable weatherImages dayName).

Ltac step_simpl := cbn [negb mbind option_bind].

(** [resume] only touches the React state, the console and the
    uncaught errors. *)
Lemma resume_inflight k st s0 : inflight_reqs (resume k st s0) = inflight_reqs s0.
Proof. by destruct k, st. Qed.
Lemma resume_now k st s0 : now (resume k st s0) = now s0.
Proof. by destruct k, st. Qed.
Lemma resume_timer k st s0 : search_timer (resume k st s0) = search_timer s0.
Proof. by destruct k, st. Qed.
Lemma resume_sent k st s0 : sent (resume k st s0) = sent s0.
Proof. by destruct k, st. Qed.
Lemma resume_next_rid k st s0 : next_rid (resume k st s0) = next_rid s0.
Proof. by destruct k, st. Qed.

(** *** One equation per event *)

Lemma step_PressSearch s t :
  guard s t = true -> on_screen s = true ->
  step s t PressSearch = Some (toggleSearch (negb (showSearch (ui_of s))) (set_now t s)).
Proof. intros Hg Ho. unfold HomeScreen.step. rewrite Hg, Ho. reflexivity. Qed.

Lemma step_ChangeText s t text :
  guard s t = true -> on_screen s = true -> showSearch (ui_of s) = true ->
  step s t (ChangeText text) =
  Some (set_timer (debounced t text (search_timer s)) (set_now t s)).
Proof. intros Hg Ho Hs. unfold HomeScreen.step. rewrite Hg, Ho, Hs. reflexivity. Qed.

Lemma step_PressLocation s t i xs loc :
  guard s t = true -> pressable s = Some xs -> xs !! i = Some loc ->
  step s t (PressLocation i) = Some (handleLocation loc (set_now t s)).
Proof.
  intros Hg Hp Hi. unfold HomeScreen.step. rewrite Hg. step_simpl.
  rewrite Hp. step_simpl. by rewrite Hi.
Qed.

Lemma step_TimerFire s t value d :
  guard s t = true -> trailing_edge (search_timer s) = Some (t, value, d) ->
  step s t TimerFire = Some (handleSearch value (set_timer d (set_now t s))).
Proof.
  intros Hg Ht. unfold HomeScreen.step. rewrite Hg, Ht. step_simpl.
  by rewrite bool_decide_true.
Qed.

Lemma step_Settle s t r o pre f post :
  guard s t = true -> inflight_reqs s = pre ++ f :: post -> rid f = r ->
  Forall (fun g => rid g <> r) pre ->
  step s t (Settle r o) =
  Some (resume (kont_of f) (fst (api_settle o))
          (console_all (snd (api_settle o)) (set_inflight (pre ++ post) (set_now t s)))).
Proof.
  intros Hg Hl Hr Hpre. unfold HomeScreen.step. rewrite Hg. step_simpl.
  unfold take_inflight. cbn [inflight_reqs set_now]. rewrite Hl.
  rewrite list_find_middle by done. step_simpl. by rewrite delete_middle.
Qed.

Lemma run_cons s t e es :
  run weatherImages dayName s ((t, e) :: es) = step s t e ≫= fun s' => run weatherImages dayName s' es.
Proof. reflexivity. Qed.

(** [on_screen] and [pressable] read the React state only. *)
Lemma on_screen_ui s1 s2 : ui_of s1 = ui_of s2 -> on_screen s1 = on_screen s2.
Proof. intros H. unfold HomeScreen.on_screen. by rewrite H. Qed.

(** *** The resolution flow *)

(** C1 (spec P3 and the selection scenario): pressing the [i]-th
    candidate on screen clears the candidate list, closes the panel,
    keeps the forecast on display, and sends exactly one request, the
    forecast for the candidate's [name] over ['7'] days, whose
    continuation is [handleLocation]'s. *)
Theorem select_clears_candidates s t i xs loc name :
  guard s t = true -> pressable s = Some xs -> xs !! i = Some loc ->
  get loc (nm "name") = Ok name ->
  exists s', step s t (PressLocation i) = Some s' /\
    locations (ui_of s') = JArr [] /\ showSearch (ui_of s') = false /\
    weather (ui_of s') = weather (ui_of s) /\
    inflight_reqs s' = inflight_reqs s ++
      [mk_inflight (next_rid s) (api_forecast (mk_params name seven)) KSelect] /\
    sent s' = sent s ++ [(t, api_forecast (mk_params name seven))].
Proof.
  intros Hg Hp Hi Hn. eexists. split; [by eapply step_PressLocation|].
  unfold handleLocation. rewrite Hn. cbn. auto 10.
Qed.

(** C25 (lines 15-25, on a nullish candidate): the entry of a [null]
    candidate renders (line 170 reads it with [?.]), but pressing it runs
    [setlocations([])] and [toggleSearch(false)] before [loc.name] throws:
    the list is cleared and the panel closed, no request is sent, and the
    TypeError is left uncaught. *)
Theorem select_nullish_candidate s t i xs loc :
  guard s t = true -> pressable s = Some xs -> xs !! i = Some loc -> nullish loc = true ->
  exists s', step s t (PressLocation i) = Some s' /\
    locations (ui_of s') = JArr [] /\ showSearch (ui_of s') = false /\
    weather (ui_of s') = weather (ui_of s) /\
    inflight_reqs s' = inflight_reqs s /\ sent s' = sent s /\
    uncaught s' = uncaught s ++ [ReadOfNullish loc (nm "name")].
Proof.
  intros Hg Hp Hi Hn. eexists. split; [by eapply step_PressLocation|].
  unfold handleLocation. rewrite get_nullish by exact Hn. cbn. auto 10.
Qed.

(** C2 (spec P5, success): when a forecast request (the mount's or a
    selection's) settles with a response, the forecast shown becomes
    exactly the response's body; the candidates and the panel are left
    alone, and the request leaves the in-flight list. *)
Theorem forecast_success_replaces s t r pre f post d :
  guard s t = true -> inflight_reqs s = pre ++ f :: post -> rid f = r ->
  Forall (fun g => rid g <> r) pre -> kont_of f <> KSearch ->
  exists s', step s t (Settle r (Resolved (response_with d))) = Some s' /\
    weather (ui_of s') = d /\ locations (ui_of s') = locations (ui_of s) /\
    showSearch (ui_of s') = showSearch (ui_of s) /\ inflight_reqs s' = pre ++ post.
Proof.
  intros Hg Hl Hr Hpre Hk. eexists. split; [by eapply step_Settle|].
  rewrite api_settle_body. destruct (kont_of f); [..|congruence]; cbn; auto.
Qed.

(** Two requests in flight settle one after the other, the newer [b]
    first: the two steps and the states they reach. *)
Lemma step_Settle_two s t1 t2 a b fa fb pre mid post oa ob :
  guard s t1 = true -> (t1 <= t2)%Z -> allows t2 (search_timer s) = true ->
  inflight_reqs s = pre ++ fa :: mid ++ fb :: post -> rid fa = a -> rid fb = b -> a <> b ->
  Forall (fun g => rid g <> a /\ rid g <> b) (pre ++ mid) ->
  exists s1 s2, step s t1 (Settle b ob) = Some s1 /\ step s1 t2 (Settle a oa) = Some s2 /\
    s1 = resume (kont_of fb) (fst (api_settle ob))
           (console_all (snd (api_settle ob)) (set_inflight (pre ++ fa :: mid ++ post) (set_now t1 s))) /\
    s2 = resume (kont_of fa) (fst (api_settle oa))
           (console_all (snd (api_settle oa)) (set_inflight (pre ++ mid ++ post) (set_now t2 s1))).
Proof.
  intros Hg Ht Ha Hl Hra Hrb Hab Hall.
  apply Forall_app in Hall as [Hpre Hmid].
  apply Forall_and_split in Hpre as [Hpa Hpb].
  apply Forall_and_split in Hmid as [Hma Hmb].
  eexists. eexists. split; [|split; [|split; reflexivity]].
  - replace (pre ++ fa :: mid ++ post) with ((pre ++ fa :: mid) ++ post) by (by rewrite <-app_assoc).
    eapply (step_Settle _ _ _ _ (pre ++ fa :: mid)); [done|by rewrite <-app_assoc|done|].
    apply Forall_app. split; [done|]. constructor; [congruence|done].
  - eapply (step_Settle _ _ _ _ pre fa (mid ++ post)); [| |done|done].
    + unfold guard. rewrite resume_now, resume_timer. cbn. by rewrite bool_decide_true by lia.
    + by rewrite resume_inflight.
Qed.

(** C5 (spec P4, last-response-wins): with two searches in flight, the
    older [a] and the newer [b], if [b]'s response arrives first the
    candidate list ends up with [a]'s stale result. *)
Theorem search_last_settled_wins s t1 t2 a b fa fb pre mid post dA dB :
  guard s t1 = true -> (t1 <= t2)%Z -> allows t2 (search_timer s) = true ->
  inflight_reqs s = pre ++ fa :: mid ++ fb :: post -> rid fa = a -> rid fb = b -> a <> b ->
  Forall (fun g => rid g <> a /\ rid g <> b) (pre ++ mid) ->
  kont_of fa = KSearch -> kont_of fb = KSearch ->
  exists s1 s2, step s t1 (Settle b (Resolved (response_with dB))) = Some s1 /\
    step s1 t2 (Settle a (Resolved (response_with dA))) = Some s2 /\
    locations (ui_of s1) = dB /\ locations (ui_of s2) = dA.
Proof.
  intros Hg Ht Ha Hl Hra Hrb Hab Hall Hka Hkb.
  destruct (step_Settle_two s t1 t2 a b fa fb pre mid post
              (Resolved (response_with dA)) (Resolved (response_with dB)))
    as (s1 & s2 & H1 & H2 & -> & ->); try done.
  do 2 eexists. split; [exact H1|]. split; [exact H2|].
  rewrite !api_settle_body, Hka, Hkb. cbn. auto.
Qed.

(** C29 (spec P5 under interleaving): with two forecast requests in flight,
    say the startup forecast for Islamabad and a selected city's, the one
    settled last decides the forecast shown: a late startup response
    replaces the city the user selected. *)
Theorem forecast_last_settled_wins s t1 t2 a b fa fb pre mid post dA dB :
  guard s t1 = true -> (t1 <= t2)%Z -> allows t2 (search_timer s) = true ->
  inflight_reqs s = pre ++ fa :: mid ++ fb :: post -> rid fa = a -> rid fb = b -> a <> b ->
  Forall (fun g => rid g <> a /\ rid g <> b) (pre ++ mid) ->
  kont_of fa <> KSearch -> kont_of fb <> KSearch ->
  exists s1 s2, step s t1 (Settle b (Resolved (response_with dB))) = Some s1 /\
    step s1 t2 (Settle a (Resolved (response_with dA))) = Some s2 /\
    weather (ui_of s1) = dB /\ weather (ui_of s2) = dA.
Proof.
  intros Hg Ht Ha Hl Hra Hrb Hab Hall Hka Hkb.
  destruct (step_Settle_two s t1 t2 a b fa fb pre mid post
              (Resolved (response_with dA)) (Resolved (response_with dB)))
    as (s1 & s2 & H1 & H2 & -> & ->); try done.
  do 2 eexists. split; [exact H1|]. split; [exact H2|].
  rewrite !api_settle_body.
  destruct (kont_of fa), (kont_of fb); try congruence; cbn; auto.
Qed.

(** C6 (spec P5, failure; the code departs from the spec): when a
    forecast request fails, [apiCall] yields [null] and the continuation
    stores it: the previous forecast is lost, and the next render throws
    at line 54 ([const { current, location } = null]). *)
Theorem forecast_failure_stores_null s t r pre f post e :
  guard s t = true -> inflight_reqs s = pre ++ f :: post -> rid f = r ->
  Forall (fun g => rid g <> r) pre -> kont_of f <> KSearch ->
  exists s', step s t (Settle r (Rejected e)) = Some s' /\
    weather (ui_of s') = JNull /\ on_screen s' = false.
Proof.
  intros Hg Hl Hr Hpre Hk. eexists. split; [by eapply step_Settle|].
  rewrite api_settle_rejected.
  destruct (kont_of f); [..|congruence]; split; try reflexivity;
    by apply display_Err, render_weather_nullish.
Qed.

(** C7 (spec 4.2 transition 5; the code departs from the spec): when a
    search fails, [handleSearch] stores [apiCall]'s [null] as the
    candidate list (the spec keeps the previous list), and the next
    render throws at line 157 ([null.length]), panel open or not. *)
Theorem search_failure_stores_null s t r pre f post e :
  guard s t = true -> inflight_reqs s = pre ++ f :: post -> rid f = r ->
  Forall (fun g => rid g <> r) pre -> kont_of f = KSearch ->
  exists s', step s t (Settle r (Rejected e)) = Some s' /\
    locations (ui_of s') = JNull /\ on_screen s' = false.
Proof.
  intros Hg Hl Hr Hpre Hk. eexists. split; [by eapply step_Settle|].
  rewrite api_settle_rejected, Hk. split; [reflexivity|].
  by apply display_Err, render_locations_nullish.
Qed.

(** C4 (spec P2): when the debounce timer fires with the text [value],
    a search request for exactly [value] is sent if and only if [value]
    has more than two code units; nothing else changes on screen. *)
Theorem timer_length_gate s t value d :
  guard s t = true -> trailing_edge (search_timer s) = Some (t, value, d) ->
  exists s', step s t TimerFire = Some s' /\
    sent s' = sent s ++ (if bool_decide (2 < length value)
                         then [(t, api_location (mk_params (JStr value) JUndefined))]
                         else []) /\
    ui_of s' = ui_of s.
Proof.
  intros Hg Ht. eexists. split; [by eapply step_TimerFire|].
  unfold handleSearch. case_bool_decide; cbn; [done|by rewrite app_nil_r].
Qed.

(** C14 (the code departs from spec 3): the search button only flips the
    panel; the candidate list survives closing and re-opening it. *)
Theorem toggle_keeps_candidates s t s' :
  step s t PressSearch = Some s' ->
  showSearch (ui_of s') = negb (showSearch (ui_of s)) /\
  locations (ui_of s') = locations (ui_of s) /\ weather (ui_of s') = weather (ui_of s).
Proof.
  unfold HomeScreen.step. destruct (guard s t), (HomeScreen.on_screen _ _ s);
    cbn; intros H; try discriminate; injection H as <-; cbn; auto.
Qed.

(** C3 (spec P1, debounce): a burst of keystrokes, each at most 1200 ms
      after the previous one, sends nothing while it lasts and leaves the
      timer armed 1200 ms after the last keystroke with the last text; when
      it fires, exactly one search is sent, for that last text, if it has
      more than two code units. *)
Theorem debounce_single_search s t1 v1 ks :
  search_timer s = idle -> (now s <= t1)%Z -> on_screen s = true ->
  showSearch (ui_of s) = true -> within_wait t1 ks ->
  let tn := fst (final_key (t1, v1) ks) in
  let vn := snd (final_key (t1, v1) ks) in
  exists s1 s2, run weatherImages dayName s (typing ((t1, v1) :: ks)) = Some s1 /\
    sent s1 = sent s /\
    step s1 (tn + wait) TimerFire = Some s2 /\
    sent s2 = sent s ++ (if bool_decide (2 < length vn)
                         then [((tn + wait)%Z, api_location (mk_params (JStr vn) JUndefined))]
                         else []).
Proof.
  intros Hidle Hnow Ho Hs Hw tn vn.
  (* each keystroke only re-arms the timer, at the keystroke's time *)
  assert (Hburst : forall s0 t v ks0,
    guard s0 t = true -> on_screen s0 = true -> showSearch (ui_of s0) = true ->
    within_wait t ks0 ->
    exists s1, run weatherImages dayName s0 (typing ((t, v) :: ks0)) = Some s1 /\
      ui_of s1 = ui_of s0 /\ sent s1 = sent s0 /\ now s1 = fst (final_key (t, v) ks0) /\
      search_timer s1 = mk_debouncer (Some (fst (final_key (t, v) ks0) + wait,
                                            snd (final_key (t, v) ks0)))%Z).
  { clear. intros s0 t v ks0. revert s0 t v.
    induction ks0 as [|[t2 v2] ks0 IH]; intros s0 t v Hg Ho Hs Hw;
      cbn [typing map fst snd]; rewrite run_cons, (step_ChangeText s0 t v) by done;
      cbn [mbind option_bind].
    - eexists. split; [reflexivity|]. cbn. auto.
    - destruct Hw as [Ht Hw].
      destruct (IH (set_timer (debounced t v (search_timer s0)) (set_now t s0)) t2 v2)
        as (s1 & Hrun & Hui & Hsent & Hnow & Htimer);
        [| by rewrite <-Ho; apply on_screen_ui | done | done |].
      + unfold guard. cbn. rewrite bool_decide_true by lia. by rewrite bool_decide_true by lia.
      + exists s1. cbn [typing map fst snd] in Hrun. rewrite Hrun. cbn [final_key]. auto. }
  destruct (Hburst s t1 v1 ks) as (s1 & Hrun & Hui & Hsent & Hn & Ht);
    [unfold guard; rewrite Hidle; cbn; by rewrite bool_decide_true | done | done | done |].
  exists s1, (handleSearch vn (set_timer idle (set_now (tn + wait) s1))).
  split; [done|]. split; [done|]. split.
  - apply step_TimerFire; [|by rewrite Ht].
    unfold guard. rewrite Hn, Ht. cbn. rewrite !bool_decide_true by (unfold tn, wait; lia). done.
  - unfold handleSearch. rewrite <-Hsent. case_bool_decide; cbn; [done|by rewrite app_nil_r].
Qed.
(** C13 (spec startup scenario): on mount the screen sends one request, the
    forecast for Islamabad over ['7'] days; when it answers with [d], the
    forecast shown is [d], the panel is closed and the candidate list is
    still the initial [[]]. *)
Theorem startup_forecast t d :
  (0 <= t)%Z ->
  exists s, run weatherImages dayName init
              [(0%Z, Mount); (t, Settle 0 (Resolved (response_with d)))] = Some s /\
    sent s = [(0%Z, api_forecast (mk_params (JStr (lit "Islamabad")) seven))] /\
    weather (ui_of s) = d /\ showSearch (ui_of s) = false /\
    locations (ui_of s) = JArr [] /\ inflight_reqs s = [].
Proof.
  intros Ht. eexists. split.
  - assert (Hg0 : guard init 0 = true) by reflexivity.
    rewrite !run_cons. unfold HomeScreen.step at 1. rewrite Hg0. cbn -[HomeScreen.step].
    rewrite (step_Settle _ _ _ _ [] (mk_inflight 0 (api_forecast (mk_params (JStr (lit "Islamabad")) seven)) KMount) []);
      [reflexivity | | reflexivity | reflexivity | constructor].
    unfold guard. cbn. by rewrite bool_decide_true.
  - rewrite api_settle_body. cbn. auto.
Qed.

End Theorems.


(** ** Witnesses *)

Lemma select_clears_candidates_witness :
  exists s', step (api:=demo_api) demo_images demo_dayName demo_state 1400 (PressLocation 0) = Some s' /\
    locations (ui_of s') = JArr [] /\ showSearch (ui_of s') = false.
Proof.
  destruct (select_clears_candidates (api:=demo_api) demo_images demo_dayName demo_state 1400 0
              [london] london (JStr (lit "London"))) as (s' & H1 & H2 & H3 & _);
    [vm_compute; reflexivity ..|].
  exists s'. auto.
Defined.

Lemma select_nullish_candidate_witness :
  exists s', step (api:=demo_api) demo_images demo_dayName null_candidate_state 1400 (PressLocation 0) = Some s' /\
    sent s' = sent null_candidate_state /\
    uncaught s' = [ReadOfNullish JNull (nm "name")].
Proof.
  destruct (select_nullish_candidate (api:=demo_api) demo_images demo_dayName null_candidate_state 1400 0
              [JNull; london] JNull) as (s' & H1 & _ & _ & _ & _ & H6 & H7);
    [vm_compute; reflexivity ..|].
  exists s'. split; [exact H1|]. split; [exact H6|]. rewrite H7. vm_compute. reflexivity.
Defined.

Lemma forecast_success_replaces_witness :
  exists s', step (api:=demo_api) demo_images demo_dayName (demo_after 1) 5
               (Settle 0 (Resolved (response_with fixture_forecast))) = Some s' /\
    weather (ui_of s') = fixture_forecast.
Proof.
  destruct (forecast_success_replaces (api:=demo_api) demo_images demo_dayName (demo_after 1) 5 0 []
              (mk_inflight 0 (@api_forecast demo_api (mk_params (JStr (lit "Islamabad")) seven)) KMount)
              [] fixture_forecast) as (s' & H1 & H2 & _);
    [vm_compute; reflexivity | vm_compute; reflexivity | reflexivity | constructor | discriminate |].
  eauto.
Defined.

Lemma forecast_failure_stores_null_witness :
  exists s', step (api:=demo_api) demo_images demo_dayName (demo_after 1) 5
               (Settle 0 (Rejected (JStr (lit "Network Error")))) = Some s' /\
    weather (ui_of s') = JNull /\ on_screen demo_images demo_dayName s' = false.
Proof.
  destruct (forecast_failure_stores_null (api:=demo_api) demo_images demo_dayName (demo_after 1) 5 0 []
              (mk_inflight 0 (@api_forecast demo_api (mk_params (JStr (lit "Islamabad")) seven)) KMount)
              [] (JStr (lit "Network Error"))) as (s' & H1 & H2 & H3);
    [vm_compute; reflexivity | vm_compute; reflexivity | reflexivity | constructor | discriminate |].
  eauto.
Defined.

Lemma search_failure_stores_null_witness :
  exists s', step (api:=demo_api) demo_images demo_dayName (demo_after 7) 1300
               (Settle 1 (Rejected (JStr (lit "Network Error")))) = Some s' /\
    locations (ui_of s') = JNull /\ on_screen demo_images demo_dayName s' = false.
Proof.
  destruct (search_failure_stores_null (api:=demo_api) demo_images demo_dayName (demo_after 7) 1300 1 []
              (mk_inflight 1 (@api_location demo_api (mk_params (JStr (lit "Lon")) JUndefined)) KSearch)
              [] (JStr (lit "Network Error"))) as (s' & H1 & H2 & H3);
    [vm_compute; reflexivity | vm_compute; reflexivity | reflexivity | constructor | reflexivity |].
  eauto.
Defined.

Lemma timer_length_gate_witness :
  exists s', step (api:=demo_api) demo_images demo_dayName (demo_after 6) 1240 TimerFire = Some s' /\
    sent s' = sent (demo_after 6) ++
      [(1240%Z, @api_location demo_api (mk_params (JStr (lit "Lon")) JUndefined))].
Proof.
  destruct (timer_length_gate (api:=demo_api) demo_images demo_dayName (demo_after 6) 1240
              (lit "Lon") idle) as (s' & H1 & H2 & _); [vm_compute; reflexivity ..|].
  exists s'. split; [done|]. rewrite H2. reflexivity.
Defined.

Lemma toggle_keeps_candidates_witness :
  exists s', step (api:=demo_api) demo_images demo_dayName demo_state 1400 PressSearch = Some s' /\
    showSearch (ui_of s') = false /\ locations (ui_of s') = JArr [london].
Proof.
  destruct (step (api:=demo_api) demo_images demo_dayName demo_state 1400 PressSearch)
    as [s'|] eqn:E; [|vm_compute in E; discriminate].
  exists s'. split; [done|].
  destruct (toggle_keeps_candidates (api:=demo_api) _ _ _ _ _ E) as (H1 & H2 & _).
  rewrite H1, H2. split; vm_compute; reflexivity.
Defined.

Lemma search_last_settled_wins_witness :
  exists s1 s2,
    step (api:=demo_api) demo_images demo_dayName race_state 2500
      (Settle 2 (Resolved (response_with (JArr [londonderry])))) = Some s1 /\
    step (api:=demo_api) demo_images demo_dayName s1 2600
      (Settle 1 (Resolved (response_with (JArr [london])))) = Some s2 /\
    locations (ui_of s2) = JArr [london].
Proof.
  destruct (search_last_settled_wins (api:=demo_api) demo_images demo_dayName race_state 2500 2600 1 2
              (mk_inflight 1 (@api_location demo_api (mk_params (JStr (lit "Lon")) JUndefined)) KSearch)
              (mk_inflight 2 (@api_location demo_api (mk_params (JStr (lit "Lond")) JUndefined)) KSearch)
              [] [] [] (JArr [london]) (JArr [londonderry]))
    as (s1 & s2 & H1 & H2 & _ & H4);
    [vm_compute; reflexivity | lia | vm_compute; reflexivity | vm_compute; reflexivity
    | reflexivity | reflexivity | lia | constructor | reflexivity | reflexivity |].
  eauto.
Defined.

Lemma debounce_single_search_witness :
  exists s1 s2,
    run (api:=demo_api) demo_images demo_dayName (demo_after 3)
      (typing [(20, lit "L"); (30, lit "Lo"); (40, lit "Lon")]%Z) = Some s1 /\
    step (api:=demo_api) demo_images demo_dayName s1 (40 + wait) TimerFire = Some s2 /\
    sent s2 = sent (demo_after 3) ++
      [((40 + wait)%Z, @api_location demo_api (mk_params (JStr (lit "Lon")) JUndefined))].
Proof.
  destruct (debounce_single_search (api:=demo_api) demo_images demo_dayName (demo_after 3) 20
              (lit "L") [(30, lit "Lo"); (40, lit "Lon")]%Z) as (s1 & s2 & H1 & _ & H3 & H4);
    [vm_compute; reflexivity | vm_compute; congruence | vm_compute; reflexivity
    | vm_compute; reflexivity | cbn; unfold wait; repeat split; lia |].
  exists s1, s2. split; [exact H1|]. split; [exact H3|]. rewrite H4. reflexivity.
Defined.

Lemma startup_forecast_witness :
  exists s, run (api:=demo_api) demo_images demo_dayName init
              [(0%Z, Mount); (5%Z, Settle 0 (Resolved (response_with fixture_forecast)))] = Some s /\
    weather (ui_of s) = fixture_forecast.
Proof.
  destruct (startup_forecast (api:=demo_api) demo_images demo_dayName 5 fixture_forecast)
    as (s & H1 & _ & H3 & _); [lia|]. eauto.
Defined.



Lemma forecast_last_settled_wins_witness :
  exists s1 s2,
    step (api:=demo_api) demo_images demo_dayName stale_forecast_state 1500
      (Settle 2 (Resolved (response_with body_two_days))) = Some s1 /\
    step (api:=demo_api) demo_images demo_dayName s1 1600
      (Settle 0 (Resolved (response_with fixture_forecast))) = Some s2 /\
    weather (ui_of s2) = fixture_forecast.
Proof.
  destruct (forecast_last_settled_wins (api:=demo_api) demo_images demo_dayName stale_forecast_state
              1500 1600 0 2
              (mk_inflight 0 (@api_forecast demo_api (mk_params (JStr (lit "Islamabad")) seven)) KMount)
              (mk_inflight 2 (@api_forecast demo_api (mk_params (JStr (lit "London")) seven)) KSelect)
              [] [] [] fixture_forecast body_two_days)
    as (s1 & s2 & H1 & H2 & _ & H4);
    [vm_compute; reflexivity | lia | vm_compute; reflexivity | vm_compute; reflexivity
    | reflexivity | reflexivity | lia | constructor | discriminate | discriminate |].
  eauto.
Defined.
