(* ===== verification/Reachability.v ===== *)
(** * Invariants, progress and quiescence of the resolution flow

    The properties of [HomeScreen.step] over whole runs: the invariants of
    the runtime state ([wf], [rejection_free], [sent_gated]) proved by
    induction on [reachable]; the bounds of one step; that a pending timer
    can fire; and that the timer and the network alone bring the flow to
    rest, in a number of events bounded by what is pending. *)

From S2P Require Import Prelude JsValue Transport Render Debounce HomeScreen.

(** ** Invariants *)

(** The runtime's bookkeeping is consistent: the ids of the requests in
    flight are distinct and index the log of sent requests at the entry of
    the same request, the log has one entry per id given out, nothing in it
    is in the future, and a pending debounce deadline is not in the past. *)
Definition wf (s : state) : Prop :=
  NoDup (rid <$> inflight_reqs s) /\
  Forall (fun f => exists t, sent s !! rid f = Some (t, req f)) (inflight_reqs s) /\
  length (sent s) = next_rid s /\
  Forall (fun x => (fst x <= now s)%Z) (sent s) /\
  allows (now s) (search_timer s) = true.

(** No promise of the flow was ever seen rejected: the console holds only
    [console.log] lines (the [catch] of [handleSearch] never ran), and the
    only uncaught errors are reads of [name] on a nullish candidate (line
    20), never an unhandled rejection. *)
Definition rejection_free (s : state) : Prop :=
  Forall (fun l => exists tag v, l = LogLine tag v) (logs s) /\
  Forall (fun e => exists loc, nullish loc = true /\ e = ReadOfNullish loc (nm "name")) (uncaught s).

(** Every request sent is a forecast, or a search for a text of more than
    two code units. *)
Definition sent_gated `{WeatherApi} (s : state) : Prop :=
  Forall (fun x => (exists p, snd x = api_forecast p) \/
                   (exists v, 2 < length v /\ snd x = api_location (mk_params (JStr v) JUndefined)))
         (sent s).

(** An event the network or the timer produces, no user gesture: a
    settlement with the answer [oc r] the network gives to request [r], or
    the debounce timer. *)
Definition environment_event (oc : nat -> outcome) (x : Z * event) : Prop :=
  match snd x with
  | Settle r o => o = oc r
  | TimerFire => True
  | _ => False
  end.

(** The events nobody types: the network settling a request, the timer. *)
Definition is_env_event (e : event) : bool :=
  match e with
  | Settle _ _ | TimerFire => true
  | _ => false
  end.

(** What is left for the environment to do: the requests in flight, and
    the pending debounce invocation, which may itself send one. *)
Definition pending (s : state) : nat :=
  length (inflight_reqs s) + match timer (search_timer s) with Some _ => 2 | None => 0 end.

(** One step of the environment, from [s] to [s']. *)
Definition env_step `{WeatherApi} (weatherImages : jsval) (dayName : jsval -> jsstr)
    (s' s : state) : Prop :=
  exists t e, is_env_event e = true /\ step weatherImages dayName s t e = Some s'.

(** ** The invariants hold in every reachable state *)

Section Invariants.
Context `{api : WeatherApi}.
Context (weatherImages : jsval) (dayName : jsval -> jsstr).

Local Abbreviation step := (step weatherImages dayName).

(** *** Well-formedness *)

Lemma wf_runtime s s' :
  inflight_reqs s' = inflight_reqs s -> sent s' = sent s -> next_rid s' = next_rid s ->
  now s' = now s -> search_timer s' = search_timer s -> wf s -> wf s'.
Proof. unfold wf. by intros -> -> -> -> ->. Qed.

Lemma wf_set_now s t :
  wf s -> (now s <= t)%Z -> allows t (search_timer s) = true -> wf (set_now t s).
Proof.
  intros (Hnd & Hin & Hlen & Hpast & Hal) Ht Hat. unfold wf; cbn.
  repeat split; try done. eapply Forall_impl; [|exact Hpast]. cbn. intros; lia.
Qed.

Lemma wf_set_timer s d : wf s -> allows (now s) d = true -> wf (set_timer d s).
Proof. intros (Hnd & Hin & Hlen & Hpast & Hal) Hd. by unfold wf; cbn. Qed.

(** Sending a request gives it the next id, the index of its log entry. *)
Lemma wf_issue s r k : wf s -> wf (issue r k s).
Proof.
  intros (Hnd & Hin & Hlen & Hpast & Hal). unfold wf, issue; cbn. repeat split.
  - rewrite fmap_app. apply list.NoDup_app. split; [done|]. split; [|apply NoDup_singleton].
    intros x Hx. cbn. rewrite list_elem_of_singleton. intros ->.
    apply list_elem_of_fmap in Hx as (f & Hf & Hmem). rewrite Forall_forall in Hin.
    destruct (Hin f (proj1 (list_elem_of_In _ _) Hmem)) as [t' Ht'].
    apply lookup_lt_Some in Ht'. lia.
  - apply Forall_app. split.
    + eapply Forall_impl; [|exact Hin]. intros f [t' Ht']. exists t'.
      rewrite lookup_app_l; [done|]. by eapply lookup_lt_Some.
    + constructor; [|constructor]. exists (now s). cbn. rewrite <-Hlen. apply lookup_last_app.
  - rewrite length_app. cbn. lia.
  - apply Forall_app. split; [done|]. constructor; [cbn; lia|constructor].
  - done.
Qed.

Lemma wf_take r s f s1 : take_inflight r s = Some (f, s1) -> wf s -> wf s1.
Proof.
  unfold take_inflight. destruct (list_find _ _) as [[i g]|]; [|discriminate].
  intros [= <- <-] (Hnd & Hin & Hlen & Hpast & Hal). unfold wf; cbn. repeat split; try done.
  - rewrite list_fmap_delete. eapply sublist_NoDup; [exact Hnd|apply sublist_delete].
  - by apply Forall_delete.
Qed.

(** [wf_solve]: close [wf (op ... s)] for the elementary operations. *)
Ltac wf_solve :=
  repeat match goal with
  | |- wf (issue _ _ _) => apply wf_issue
  | |- wf (resume ?k ?st ?s0) =>
      apply (wf_runtime s0);
        [apply resume_inflight|apply resume_sent|apply resume_next_rid|apply resume_now
        |apply resume_timer|]
  | |- wf (?op ?s0) => apply (wf_runtime s0); [reflexivity ..|]
  end; try assumption.

Lemma wf_handleLocation loc s : wf s -> wf (handleLocation loc s).
Proof. intros Hwf. unfold handleLocation. destruct (get loc (nm "name")); wf_solve. Qed.

Lemma wf_handleSearch v s : wf s -> wf (handleSearch v s).
Proof. intros Hwf. unfold handleSearch. case_bool_decide; wf_solve. Qed.

(** Every step keeps the bookkeeping consistent. *)
Lemma step_wf s t e s' : step s t e = Some s' -> wf s -> wf s'.
Proof.
  unfold HomeScreen.step. destruct (guard s t) eqn:Hg; cbn [negb]; [|discriminate].
  unfold guard in Hg. apply andb_true_iff in Hg as [Hle Hal].
  apply bool_decide_eq_true in Hle. intros Hs Hwf.
  assert (Hwf0 : wf (set_now t s)) by (by apply wf_set_now).
  destruct e as [| |text|i| |r o]; cbn [mbind option_bind] in Hs.
  - destruct (mounted s); [discriminate|]. injection Hs as <-. unfold fetchMyweatherData.
    apply wf_issue. by apply (wf_runtime (set_now t s)).
  - destruct (HomeScreen.on_screen _ _ s); [|discriminate]. injection Hs as <-. wf_solve.
  - destruct (_ && _); [|discriminate]. injection Hs as <-. apply wf_set_timer; [done|].
    cbn. apply bool_decide_eq_true. unfold wait. lia.
  - destruct (HomeScreen.pressable _ _ s) as [xs|]; [|discriminate]. cbn in Hs.
    destruct (xs !! i) as [loc|]; [|discriminate]. injection Hs as <-.
    by apply wf_handleLocation.
  - destruct (trailing_edge (search_timer s)) as [[[dl v] d]|] eqn:Ht; [|discriminate].
    case_bool_decide; [|discriminate]. injection Hs as <-. apply wf_handleSearch.
    unfold trailing_edge in Ht. destruct (timer (search_timer s)) as [[??]|]; [|discriminate].
    injection Ht as _ _ <-. by apply wf_set_timer.
  - destruct (take_inflight r (set_now t s)) as [[f s1]|] eqn:Ht; [|discriminate].
    injection Hs as <-. pose proof (wf_take _ _ _ _ Ht Hwf0). wf_solve.
Qed.

(** [take_inflight] only changes the in-flight list. *)
Lemma take_inflight_state r s f s1 :
  take_inflight r s = Some (f, s1) -> exists l, s1 = set_inflight l s.
Proof.
  unfold take_inflight. destruct (list_find _ _) as [[i g]|]; [|discriminate].
  intros [= <- <-]. eauto.
Qed.

(** The shape of a step: the event's guard held and the state moved to
    the one the handler computes from [set_now t s]. *)
Lemma step_some s t e s' :
  step s t e = Some s' ->
  guard s t = true /\
  match e with
  | Mount => s' = fetchMyweatherData (set_mounted (set_now t s))
  | PressSearch => s' = toggleSearch (negb (showSearch (ui_of s))) (set_now t s)
  | ChangeText text => s' = set_timer (debounced t text (search_timer s)) (set_now t s)
  | PressLocation i => exists loc, s' = handleLocation loc (set_now t s)
  | TimerFire => exists v, trailing_edge (search_timer s) = Some (t, v, idle) /\
                           s' = handleSearch v (set_timer idle (set_now t s))
  | Settle r o => exists f s1, take_inflight r (set_now t s) = Some (f, s1) /\
      s' = resume (kont_of f) (fst (api_settle o)) (console_all (snd (api_settle o)) s1)
  end.
Proof.
  unfold HomeScreen.step. destruct (guard s t); cbn [negb]; [|discriminate]. intros Hs.
  split; [done|]. destruct e as [| |text|i| |r o]; cbn [mbind option_bind] in Hs.
  - destruct (mounted s); [discriminate|]. by injection Hs as <-.
  - destruct (HomeScreen.on_screen _ _ s); [|discriminate]. by injection Hs as <-.
  - destruct (_ && _); [|discriminate]. by injection Hs as <-.
  - destruct (HomeScreen.pressable _ _ s) as [xs|]; [|discriminate]. cbn in Hs.
    destruct (xs !! i) as [loc|]; [|discriminate]. injection Hs as <-. eauto.
  - destruct (trailing_edge (search_timer s)) as [[[dl v] d]|] eqn:Ht; [|discriminate].
    case_bool_decide; [|discriminate]. injection Hs as <-. subst dl. exists v.
    unfold trailing_edge in *. destruct (timer (search_timer s)) as [[??]|]; [|discriminate].
    by injection Ht as -> -> <-.
  - destruct (take_inflight r (set_now t s)) as [[f s1]|] eqn:Ht; [|discriminate].
    injection Hs as <-. eauto.
Qed.

(** *** No rejection is ever observed *)

Lemma rf_extend s s' ls us :
  logs s' = logs s ++ ls -> uncaught s' = uncaught s ++ us ->
  Forall (fun l => exists tag v, l = LogLine tag v) ls ->
  Forall (fun e => exists loc, nullish loc = true /\ e = ReadOfNullish loc (nm "name")) us ->
  rejection_free s -> rejection_free s'.
Proof.
  intros Hl Hu Hls Hus [Hlog Hunc]. unfold rejection_free.
  rewrite Hl, Hu, !Forall_app. tauto.
Qed.

Lemma rf_same s s' :
  logs s' = logs s -> uncaught s' = uncaught s -> rejection_free s -> rejection_free s'.
Proof. intros Hl Hu. apply (rf_extend s s' [] []); rewrite ?app_nil_r; auto. Qed.

Lemma step_rejection_free s t e s' :
  step s t e = Some s' -> rejection_free s -> rejection_free s'.
Proof.
  intros Hs Hrf. apply step_some in Hs as [_ Hs]. destruct e as [| |text|i| |r o].
  - subst. by apply (rf_same s).
  - subst. by apply (rf_same s).
  - subst. by apply (rf_same s).
  - destruct Hs as [loc ->]. unfold handleLocation.
    destruct (get loc (nm "name")) as [name|err] eqn:Hget.
    + apply (rf_extend s _ [LogLine (lit "location: ") (ThrownValue loc)] []);
        try exact Hrf; rewrite ?app_nil_r; repeat constructor; eauto.
    + pose proof (get_Err_nullish _ _ _ Hget) as Hn. apply get_Err in Hget as ->.
      apply (rf_extend s _ [LogLine (lit "location: ") (ThrownValue loc)]
               [ReadOfNullish loc (nm "name")]); try exact Hrf; repeat constructor; eauto.
  - destruct Hs as (v & _ & ->). unfold handleSearch. by case_bool_decide; apply (rf_same s).
  - destruct Hs as (f & s1 & Ht & ->). apply take_inflight_state in Ht as [l ->].
    destruct (api_never_rejects o) as [v Hv]. rewrite Hv.
    pose proof (api_logs_plain o) as Hplain.
    destruct (kont_of f); cbn.
    + by apply (rf_extend s _ (snd (api_settle o)) []); rewrite ?app_nil_r.
    + apply (rf_extend s _ (snd (api_settle o) ++ [LogLine (lit "got forecase: ") (ThrownValue v)]) []);
        rewrite ?app_nil_r, ?app_assoc; auto. apply Forall_app. split; [done|].
      repeat constructor; eauto.
    + by apply (rf_extend s _ (snd (api_settle o)) []); rewrite ?app_nil_r.
Qed.

(** *** Only gated searches are sent *)

Lemma sent_gated_same s s' : sent s' = sent s -> sent_gated s -> sent_gated s'.
Proof. unfold sent_gated. by intros ->. Qed.

Lemma sent_gated_issue s r k :
  ((exists p, r = api_forecast p) \/
   (exists v, 2 < length v /\ r = api_location (mk_params (JStr v) JUndefined))) ->
  sent_gated s -> sent_gated (issue r k s).
Proof.
  intros Hr Hs. unfold sent_gated, issue. cbn. apply Forall_app. split; [done|].
  constructor; [exact Hr|constructor].
Qed.

Lemma step_sent_gated s t e s' : step s t e = Some s' -> sent_gated s -> sent_gated s'.
Proof.
  intros Hs Hg. apply step_some in Hs as [_ Hs]. destruct e as [| |text|i| |r o].
  - subst. unfold fetchMyweatherData. apply sent_gated_issue; [eauto|done].
  - subst. by apply (sent_gated_same s).
  - subst. by apply (sent_gated_same s).
  - destruct Hs as [loc ->]. unfold handleLocation. destruct (get loc (nm "name")).
    + apply sent_gated_issue; [eauto|done].
    + by apply (sent_gated_same s).
  - destruct Hs as (v & _ & ->). unfold handleSearch. case_bool_decide.
    + apply sent_gated_issue; [eauto|done].
    + by apply (sent_gated_same s).
  - destruct Hs as (f & s1 & Ht & ->). apply take_inflight_state in Ht as [l ->].
    apply (sent_gated_same s); [|done]. by rewrite resume_sent.
Qed.
End Invariants.

(** ** Reachable states *)

Section Reachable.
Context `{api : WeatherApi}.
Context (weatherImages : jsval) (dayName : jsval -> jsstr).

(** A run from a reachable state ends in a reachable state. *)
Lemma run_reachable s es s' :
  run weatherImages dayName s es = Some s' ->
  reachable weatherImages dayName s -> reachable weatherImages dayName s'.
Proof.
  revert s. induction es as [|[t e] es IH]; intros s Hrun Hs.
  - by injection Hrun as <-.
  - rewrite run_cons in Hrun.
    destruct (HomeScreen.step _ _ s t e) as [s1|] eqn:Hstep; [|discriminate].
    apply (IH s1); [done|]. by eapply reachable_step.
Qed.

(** Every reachable state is well formed: the requests in
    flight have distinct ids, each id indexes the log entry of its own
    request, the log has one entry per id and none in the future, and a
    pending debounce deadline is never in the past. *)
Theorem reachable_wf s : reachable weatherImages dayName s -> wf s.
Proof.
  induction 1 as [|s t e s' _ IH Hs].
  - unfold wf. cbn. repeat split; constructor.
  - by eapply step_wf.
Qed.

(** C11 (spec section 7, redundant error boundary): in every reachable state
    the console holds only [console.log] lines and no rejection went
    unhandled: the [catch] of [handleSearch] (lines 33-35) never runs,
    because the promise of [apiCall] never rejects.  The only uncaught
    errors are the reads of [loc.name] on a nullish candidate. *)
Theorem catch_unreachable s : reachable weatherImages dayName s -> rejection_free s.
Proof.
  induction 1 as [|s t e s' _ IH Hs].
  - split; constructor.
  - by eapply step_rejection_free.
Qed.

(** C12 (spec P2, over whole runs): in every reachable state, every request
    ever sent is a forecast or a search for a text of more than two code
    units. *)
Theorem reachable_sent_gated s : reachable weatherImages dayName s -> sent_gated s.
Proof.
  induction 1 as [|s t e s' _ IH Hs].
  - constructor.
  - by eapply step_sent_gated.
Qed.
(** C20 (spec 4.1, one request per call): a step sends at most one
    request, stamped with the step's time, and never forgets one. *)
Theorem step_sends_at_most_one s t e s' :
  step weatherImages dayName s t e = Some s' ->
  exists l, sent s' = sent s ++ l /\ length l <= 1 /\ Forall (fun x => fst x = t) l.
Proof.
  intros Hs. apply step_some in Hs as [_ Hs].
  assert (Hone : forall r k s0, now s0 = t -> sent s0 = sent s ->
            exists l, sent (issue r k s0) = sent s ++ l /\ length l <= 1 /\
                      Forall (fun x => fst x = t) l)
    by (intros r k s0 Hn Hs0; exists [(now s0, r)]; cbn; rewrite Hn, Hs0; auto).
  assert (Hnone : forall s0, sent s0 = sent s ->
            exists l, sent s0 = sent s ++ l /\ length l <= 1 /\ Forall (fun x => fst x = t) l)
    by (intros s0 ->; exists []; rewrite app_nil_r; cbn; auto).
  destruct e as [| |text|i| |r o].
  - subst. by apply Hone.
  - subst. by apply Hnone.
  - subst. by apply Hnone.
  - destruct Hs as [loc ->]. unfold handleLocation.
    destruct (get loc (nm "name")); [by apply Hone | by apply Hnone].
  - destruct Hs as (v & _ & ->). unfold handleSearch.
    case_bool_decide; [by apply Hone | by apply Hnone].
  - destruct Hs as (f & s1 & Ht & ->). apply take_inflight_state in Ht as [l ->].
    apply Hnone. by rewrite resume_sent.
Qed.

(** Liveness of the debounce: in a well-formed state a pending debounce
    invocation can always run at its deadline, and leaves the timer idle. *)
Theorem timer_can_fire s deadline v :
  wf s -> timer (search_timer s) = Some (deadline, v) ->
  exists s', step weatherImages dayName s deadline TimerFire = Some s' /\ search_timer s' = idle.
Proof.
  intros (_ & _ & _ & _ & Hal) Ht. unfold allows in Hal. rewrite Ht in Hal.
  exists (handleSearch v (set_timer idle (set_now deadline s))). split.
  - apply step_TimerFire.
    + unfold guard, allows. rewrite Ht. apply andb_true_iff. split; [done|].
      by apply bool_decide_eq_true.
    + unfold trailing_edge. by rewrite Ht.
  - unfold handleSearch. destruct (bool_decide (2 < length v)); reflexivity.
Qed.

(** *** Quiescence: with no user input the flow comes to rest *)


(** In a well-formed state an event may come now. *)
Lemma guard_now s : wf s -> guard s (now s) = true.
Proof.
  intros (_ & _ & _ & _ & Hal). unfold guard. rewrite Hal, andb_true_r.
  by apply bool_decide_eq_true.
Qed.

(** Settling the requests in flight one after the other, oldest first,
    empties the in-flight list without sending anything or touching the
    timer. *)
Lemma settle_all (oc : nat -> outcome) s :
  wf s -> exists es s', run weatherImages dayName s es = Some s' /\
    inflight_reqs s' = [] /\ search_timer s' = search_timer s /\ sent s' = sent s /\
    Forall (environment_event oc) es.
Proof.
  remember (inflight_reqs s) as l eqn:Hl. revert s Hl.
  induction l as [|f post IH]; intros s Hl Hwf.
  - exists [], s. by repeat split.
  - pose proof (step_Settle weatherImages dayName s (now s) (rid f) (oc (rid f)) [] f post
                  (guard_now s Hwf) (eq_sym Hl) eq_refl (Forall_nil_2 _)) as Hstep.
    set (s1 := resume _ _ _) in Hstep.
    assert (Hpost : post = inflight_reqs s1) by (unfold s1; by rewrite resume_inflight).
    destruct (IH s1 Hpost (step_wf _ _ _ _ _ _ Hstep Hwf))
      as (es & s' & Hrun & Hnil & Htimer & Hsent & Hall).
    exists ((now s, Settle (rid f) (oc (rid f))) :: es), s'.
    rewrite run_cons, Hstep. cbn [mbind option_bind]. split; [exact Hrun|].
    rewrite Htimer, Hsent. unfold s1. rewrite resume_timer, resume_sent.
    split; [done|]. split; [done|].
    split; [done|]. by constructor.
Qed.

(** C27 (progress of the whole flow): from a well-formed state (every
    reachable one, [reachable_wf]), the timer and the network alone bring the screen to
    rest, whatever the network answers: a pending debounce fires, every
    request in flight settles, and the flow ends with nothing in flight, the
    timer idle, and every request sent before still in the log. *)
Theorem quiescence (oc : nat -> outcome) s :
  wf s -> exists es s', run weatherImages dayName s es = Some s' /\
    inflight_reqs s' = [] /\ search_timer s' = idle /\ sent s `prefix_of` sent s' /\
    Forall (environment_event oc) es.
Proof.
  intros Hwf. destruct (timer (search_timer s)) as [[deadline v]|] eqn:Ht.
  - assert (Hstep : step weatherImages dayName s deadline TimerFire =
                    Some (handleSearch v (set_timer idle (set_now deadline s)))).
    { apply step_TimerFire; [|by unfold trailing_edge; rewrite Ht].
      destruct Hwf as (_ & _ & _ & _ & Hal). unfold allows in Hal. rewrite Ht in Hal.
      unfold guard, allows. rewrite Ht. apply andb_true_iff.
      split; [done|by apply bool_decide_eq_true]. }
    destruct (settle_all oc _ (step_wf _ _ _ _ _ _ Hstep Hwf))
      as (es & s' & Hrun & Hnil & Htimer & Hsent & Hall).
    exists ((deadline, TimerFire) :: es), s'.
    rewrite run_cons, Hstep. cbn [mbind option_bind]. split; [exact Hrun|].
    split; [done|]. rewrite Htimer, Hsent. unfold handleSearch.
    destruct (bool_decide (2 < length v)); (split; [done|]); (split; [|by constructor]);
      cbn; [by eexists|by exists []; rewrite app_nil_r].
  - destruct (settle_all oc s Hwf) as (es & s' & Hrun & Hnil & Htimer & Hsent & Hall).
    exists es, s'. split; [exact Hrun|]. split; [done|].
    rewrite Htimer, Hsent. split; [by destruct (search_timer s); cbn in Ht; subst|].
    split; [done|exact Hall].
Qed.
(** *** The environment alone cannot go on forever *)

(** Taking a request out of the in-flight list shortens it by one. *)
Lemma take_inflight_length r s f s1 :
  take_inflight r s = Some (f, s1) ->
  S (length (inflight_reqs s1)) = length (inflight_reqs s) /\ search_timer s1 = search_timer s.
Proof.
  unfold take_inflight. destruct (list_find _ _) as [[i g]|] eqn:E; [|discriminate].
  intros [= <- <-]. apply list_find_Some in E as (Hi & _). cbn. split; [|done].
  rewrite length_delete by eauto. apply lookup_lt_Some in Hi. lia.
Qed.

(** Every step of the environment consumes some of what is [pending]. *)
Lemma env_step_pending s s' :
  env_step weatherImages dayName s' s -> pending s' < pending s.
Proof.
  intros (t & e & He & Hs). apply step_some in Hs as [_ Hs].
  destruct e as [| | | | |r o]; try discriminate He.
  - destruct Hs as (v & Ht & ->). unfold trailing_edge in Ht.
    unfold pending. destruct (timer (search_timer s)) as [[??]|]; [|discriminate].
    unfold handleSearch. destruct (bool_decide _); cbn; rewrite ?length_app; cbn; lia.
  - destruct Hs as (f & s1 & Ht & ->). apply take_inflight_length in Ht as [Hlen Htm].
    unfold pending. rewrite resume_inflight, resume_timer. cbn in Hlen, Htm |- *.
    rewrite Htm. lia.
Qed.


(** C31 (bounds): a run made only of network and timer events has at most
    [pending s] events: one per request in flight, two for a pending
    debounce invocation (it fires, and the search it sends settles). *)
Theorem env_run_bound s es s' :
  run weatherImages dayName s es = Some s' -> Forall (fun x => is_env_event (snd x) = true) es ->
  length es <= pending s.
Proof.
  revert s. induction es as [|[t e] es IH]; intros s Hrun Hall; [cbn; lia|].
  rewrite run_cons in Hrun. destruct (step _ _ s t e) as [s1|] eqn:Hs; [|discriminate].
  apply list.Forall_cons in Hall as [He Hall].
  pose proof (env_step_pending s s1 (ex_intro _ t (ex_intro _ e (conj He Hs)))).
  specialize (IH s1 Hrun Hall). cbn. lia.
Qed.

End Reachable.


(** ** Concrete states for the witnesses *)

(** [wf] of a closed state, by evaluation. *)
Ltac wf_concrete :=
  vm_compute; repeat split;
  repeat first [ constructor | eexists; reflexivity | intros ?; discriminate
               | intros H; inversion H; subst; clear H
               | match goal with H : _ ∈ [] |- _ => by apply not_elem_of_nil in H end ].

Lemma demo_after_6_wf : wf (demo_after 6).
Proof. wf_concrete. Qed.

Lemma race_state_wf : wf race_state.
Proof. wf_concrete. Qed.

Lemma demo_state_wf : wf demo_state.
Proof. wf_concrete. Qed.

Lemma step_sends_at_most_one_witness :
  exists s' l, step (api:=demo_api) demo_images demo_dayName demo_state 1400 (PressLocation 0) = Some s' /\
    sent s' = sent demo_state ++ l /\ length l <= 1.
Proof.
  destruct (step (api:=demo_api) demo_images demo_dayName demo_state 1400 (PressLocation 0))
    as [s'|] eqn:E; [|vm_compute in E; discriminate].
  destruct (step_sends_at_most_one (api:=demo_api) demo_images demo_dayName _ _ _ _ E)
    as (l & H1 & H2 & _).
  exists s', l. auto.
Defined.


Lemma demo_state_reachable : reachable (api:=demo_api) demo_images demo_dayName demo_state.
Proof.
  apply (run_reachable (api:=demo_api) demo_images demo_dayName init demo_events);
    [vm_compute; reflexivity | constructor].
Qed.


Lemma catch_unreachable_witness : rejection_free demo_state.
Proof. apply (catch_unreachable (api:=demo_api) demo_images demo_dayName), demo_state_reachable. Defined.

Lemma reachable_sent_gated_witness : sent_gated (H:=demo_api) demo_state.
Proof. apply (reachable_sent_gated (api:=demo_api) demo_images demo_dayName), demo_state_reachable. Defined.

Lemma quiescence_witness :
  exists es s', run (api:=demo_api) demo_images demo_dayName (demo_after 6) es = Some s' /\
    inflight_reqs s' = [] /\ search_timer s' = idle /\
    Forall (environment_event (fun _ => Resolved (response_with (JArr [london])))) es.
Proof.
  destruct (quiescence (api:=demo_api) demo_images demo_dayName
              (fun _ => Resolved (response_with (JArr [london]))) (demo_after 6) demo_after_6_wf)
    as (es & s' & H1 & H2 & H3 & _ & H5).
  exists es, s'. auto.
Defined.

Lemma env_run_bound_witness :
  run (api:=demo_api) demo_images demo_dayName (demo_after 6)
    [(1240, TimerFire); (1300, Settle 1 (Resolved (response_with (JArr [london]))))]%Z <> None /\
  2 <= pending (demo_after 6).
Proof.
  destruct (run (api:=demo_api) demo_images demo_dayName (demo_after 6)
              [(1240, TimerFire); (1300, Settle 1 (Resolved (response_with (JArr [london]))))]%Z)
    as [s'|] eqn:E; [|vm_compute in E; discriminate].
  split; [done|].
  apply (env_run_bound (api:=demo_api) demo_images demo_dayName _ _ s' E).
  repeat constructor.
Defined.

