(* ===== verification/EndToEnd.v ===== *)
(** * The screen over the real Transport

    [HomeScreen] is proved against the contract [WeatherApi]; this file
    instantiates it with [weather_api apiKey], the model of
    [src/api/weather.js], and follows a gesture down to the URL the
    provider reads ([QueryString.parse_query]): the search the debounce
    timer sends, and the forecast a selection sends. *)

From S2P Require Import Prelude JsValue Transport Render Debounce HomeScreen.

Section EndToEnd.
Import QueryString.
Context (apiKey : jsval) (weatherImages : jsval) (dayName : jsval -> jsstr).

(** The screen running over the Transport of [weather.js]. *)
Local Abbreviation step := (@step (weather_api apiKey) weatherImages dayName).

(** C32 (lines 28-32 with [weather.js] lines 6 and 26-28): when the
    debounce timer fires on a text of more than two code units with no
    [&] and no [#], the screen sends one GET whose query the provider reads
    as exactly the key and [q] set to the typed text. *)
Theorem search_request_query s t v d :
  plain (to_str apiKey) -> guard s t = true ->
  trailing_edge (search_timer s) = Some (t, v, d) -> 2 < length v -> plain v ->
  exists s' r, step s t TimerFire = Some s' /\ sent s' = sent s ++ [(t, r)] /\
    method r = lit "GET" /\ parse_query (url r) = [(lit "key", to_str apiKey); (lit "q", v)].
Proof.
  intros HK Hg Ht Hv Hp.
  exists (handleSearch (api:=weather_api apiKey) v (set_timer d (set_now t s))),
         (fetchLocation apiKey (mk_params (JStr v) JUndefined)).
  split; [by apply step_TimerFire|]. unfold handleSearch.
  rewrite bool_decide_true by lia. split; [reflexivity|]. split; [reflexivity|].
  exact (location_query_plain apiKey (mk_params (JStr v) JUndefined) HK Hp).
Qed.

(** C33 (lines 15-25 with [weather.js] lines 4-5 and 22-24): pressing a
    candidate whose [name] is a string with no [&] and no [#] sends one
    GET whose query the provider reads as the key, [q] set to the name,
    [days] set to [7], and [alerts] ending in the newline of line 5. *)
Theorem select_request_query s t i xs loc n :
  plain (to_str apiKey) -> guard s t = true ->
  pressable weatherImages dayName s = Some xs -> xs !! i = Some loc ->
  get loc (nm "name") = Ok (JStr n) -> plain n ->
  exists s' r, step s t (PressLocation i) = Some s' /\ sent s' = sent s ++ [(t, r)] /\
    method r = lit "GET" /\
    parse_query (url r) =
      [(lit "key", to_str apiKey); (lit "q", n); (lit "days", lit "7");
       (lit "aqi", lit "no"); (lit "alerts", lit "no" ++ [10%Z])].
Proof.
  intros HK Hg Hp Hi Hn Hplain.
  exists (handleLocation (api:=weather_api apiKey) loc (set_now t s)),
         (fetchWeatherForecast apiKey (mk_params (JStr n) seven)).
  split; [by eapply step_PressLocation|]. unfold handleLocation. rewrite Hn.
  split; [reflexivity|]. split; [reflexivity|].
  apply (forecast_query_plain apiKey (mk_params (JStr n) seven) HK Hplain).
  split; notin.
Qed.
End EndToEnd.

Lemma search_request_query_witness :
  exists s' r, step (api:=weather_api demo_key) demo_images demo_dayName (demo_after 6) 1240 TimerFire
                 = Some s' /\
    QueryString.parse_query (url r) = [(lit "key", lit "demo-key"); (lit "q", lit "Lon")] /\
    sent s' = sent (demo_after 6) ++ [(1240%Z, r)].
Proof.
  destruct (search_request_query demo_key demo_images demo_dayName (demo_after 6) 1240 (lit "Lon") idle)
    as (s' & r & H1 & H2 & _ & H4);
    [split; notin | vm_compute; reflexivity | vm_compute; reflexivity | cbn; lia | split; notin |].
  exists s', r. auto.
Defined.

Lemma select_request_query_witness :
  exists s' r, step (api:=weather_api demo_key) demo_images demo_dayName demo_state 1400 (PressLocation 0)
                 = Some s' /\
    QueryString.parse_query (url r) =
      [(lit "key", lit "demo-key"); (lit "q", lit "London"); (lit "days", lit "7");
       (lit "aqi", lit "no"); (lit "alerts", lit "no" ++ [10%Z])].
Proof.
  destruct (select_request_query demo_key demo_images demo_dayName demo_state 1400 0 [london] london
              (lit "London")) as (s' & r & H1 & _ & _ & H4);
    [split; notin | vm_compute; reflexivity | vm_compute; reflexivity | reflexivity
    | reflexivity | split; notin |].
  exists s', r. auto.
Defined.
