(* ===== verification/Robustness.v ===== *)
(** * The screen survives a well-behaved provider

    [HomeScreen] stores whatever the network hands back, and [Render]
    throws on the wrong shapes (C6, C7, C19, C24, C28).  This file shows
    the converse for whole runs: if every request that settles succeeds
    with a body of the shape the provider documents
    ([Render.documented_forecast], [Render.documented_candidates]), the
    screen is on display, rendered and mounted by React, in every state
    the flow reaches.  The proof is the invariant [good_ui] of the React
    state, established by [useState]'s initial values, preserved by every
    handler, and enough for the display ([Render.display_ok_of]). *)

From S2P Require Import Prelude JsValue Transport Render Debounce HomeScreen Reachability.

(** A body of the documented shape for the request's continuation. *)
Definition good_body (k : kont) (d : jsval) : bool :=
  match k with
  | KSearch => documented_candidates d
  | KMount | KSelect => documented_forecast d
  end.

(** A well-behaved event in state [s]: a settlement is a response whose
    [data] has the documented shape for the request it settles. *)
Definition good_event (s : state) (e : event) : bool :=
  match e with
  | Settle r (Resolved resp) =>
      match get resp (nm "data") with
      | Ok d => forallb (fun f => negb (Nat.eqb (rid f) r) || good_body (kont_of f) d)
                        (inflight_reqs s)
      | Err _ => false
      end
  | Settle _ (Rejected _) => false
  | _ => true
  end.

(** The React state of documented shape: the forecast and the candidate
    list. *)
Definition good_ui (u : ui) : bool :=
  documented_forecast (weather u) && documented_candidates (locations u).

Section Robustness.
Context `{api : WeatherApi}.
Context (weatherImages : jsval) (dayName : jsval -> jsstr).

(** The states reached by well-behaved events. *)
Inductive reachable_good : state -> Prop :=
  | good_init : reachable_good init
  | good_step s t e s' :
      reachable_good s -> good_event s e = true ->
      step weatherImages dayName s t e = Some s' -> reachable_good s'.

(** A run all of whose events are well behaved where they happen. *)
Fixpoint good_run (s : state) (es : list (Z * event)) : bool :=
  match es with
  | [] => true
  | (t, e) :: es' =>
      good_event s e &&
      match step weatherImages dayName s t e with Some s' => good_run s' es' | None => false end
  end.
End Robustness.

Section RobustnessProofs.
Context `{api : WeatherApi}.
Context (weatherImages : jsval) (dayName : jsval -> jsstr).

Lemma run_reachable_good s es s' :
  good_run weatherImages dayName s es = true -> run weatherImages dayName s es = Some s' ->
  reachable_good weatherImages dayName s -> reachable_good weatherImages dayName s'.
Proof.
  revert s. induction es as [|[t e] es IH]; intros s Hg Hrun Hs; [by injection Hrun as <-|].
  cbn [good_run] in Hg. rewrite run_cons in Hrun.
  apply andb_true_iff in Hg as [He Hg].
  destruct (step _ _ s t e) as [s1|] eqn:Hstep; [|discriminate].
  apply (IH s1 Hg Hrun). by eapply good_step.
Qed.

(** The request [take_inflight r] takes out is in flight and has id [r]. *)
Lemma take_inflight_found r s f s1 :
  take_inflight r s = Some (f, s1) -> f ∈ inflight_reqs s /\ rid f = r.
Proof.
  unfold take_inflight. destruct (list_find _ _) as [[i g]|] eqn:E; [|discriminate].
  intros [= <- <-]. apply list_find_Some in E as (Hi & Hr & _).
  split; [by eapply list_elem_of_lookup_2|done].
Qed.

(** A React state of [good_ui] is on display. *)
Lemma good_ui_displays u :
  nullish weatherImages = false -> good_ui u = true ->
  is_ok (display weatherImages dayName u) = true.
Proof.
  unfold good_ui. intros Hi [Hw Hl]%andb_true_iff.
  destruct (documented_fields _ Hw) as (Hn & Hr & Hc).
  apply display_ok_of; [|by apply documented_children].
  apply render_ok_of; [done..|].
  destruct (locations u) as [| | | | |xs|] eqn:E; try (cbn in Hl; discriminate Hl).
  by destruct (render_candidates_total u xs E) as [c ->].
Qed.

(** Every handler keeps [good_ui] on a well-behaved event: the setters
    store [[]] or a body of the documented shape. *)
Lemma step_good_ui s t e s' :
  step weatherImages dayName s t e = Some s' -> good_event s e = true ->
  good_ui (ui_of s) = true -> good_ui (ui_of s') = true.
Proof.
  intros Hs He Hok. apply step_some in Hs as [_ Hs].
  destruct e as [| |text|i| |r o]; try by subst.
  - destruct Hs as [loc ->]. unfold handleLocation, good_ui in *.
    apply andb_true_iff in Hok as [Hw _].
    by destruct (get loc (nm "name")); cbn -[documented_forecast]; rewrite Hw.
  - destruct Hs as (v & _ & ->). unfold handleSearch. by destruct (bool_decide _).
  - destruct Hs as (f & s1 & Ht & ->). pose proof (take_inflight_found _ _ _ _ Ht) as [Hf Hr].
    apply take_inflight_state in Ht as [l ->].
    cbn [good_event] in He. destruct o as [resp|err]; [|discriminate].
    destruct (get resp (nm "data")) as [d|] eqn:Hd; [|discriminate].
    rewrite (api_settle_data resp d Hd).
    apply list_elem_of_In in Hf. pose proof (proj1 (forallb_forall _ _) He f Hf) as Hb.
    cbn in Hb. rewrite Hr, Nat.eqb_refl in Hb. cbn in Hb.
    unfold good_ui in *. apply andb_true_iff in Hok as [Hwf Hl].
    destruct (kont_of f); cbn [good_body] in Hb; cbn -[documented_forecast documented_candidates];
      by rewrite ?Hb, ?Hl, ?Hwf.
Qed.

(** C34 (safety of the whole screen): with an image table and a provider
    that answers every request successfully in the documented shape, the
    screen is on display in every state the flow reaches: the render
    throws no TypeError and React's mount throws no error. *)
Theorem screen_never_crashes s :
  nullish weatherImages = false -> reachable_good weatherImages dayName s ->
  is_ok (display weatherImages dayName (ui_of s)) = true.
Proof.
  intros Hi Hs. apply good_ui_displays; [done|].
  induction Hs as [|s t e s' _ IH He Hstep]; [reflexivity|].
  by eapply step_good_ui.
Qed.
End RobustnessProofs.

Lemma screen_never_crashes_witness :
  is_ok (display demo_images demo_dayName (ui_of demo_state)) = true.
Proof.
  apply (screen_never_crashes (api:=demo_api) demo_images demo_dayName); [reflexivity|].
  apply (run_reachable_good (api:=demo_api) demo_images demo_dayName init demo_events);
    [vm_compute; reflexivity | vm_compute; reflexivity | constructor].
Defined.
