(* ===== verification/Semantics.v ===== *)
(** * The console trace of a selection

    [select_trace] follows one selection from the press to the forecast's
    arrival through [HomeScreen.step] and reads the console lines it
    writes, in order. *)

From S2P Require Import Prelude JsValue Transport Render Debounce HomeScreen Reachability.

(** ** The trace of a selection *)

Section Trace.
Context `{api : WeatherApi}.
Context (weatherImages : jsval) (dayName : jsval -> jsstr).

(** In a well-formed state every id in flight was given out before. *)
Lemma wf_rid_lt s f : wf s -> f ∈ inflight_reqs s -> rid f < next_rid s.
Proof.
  intros (_ & Hsent & Hlen & _) Hf. rewrite Forall_forall in Hsent.
  apply list_elem_of_In in Hf. destruct (Hsent f Hf) as [t Ht].
  rewrite <-Hlen. by eapply lookup_lt_Some.
Qed.

(** C35 (ordering, lines 15-25): in a well-formed state, pressing a
    candidate whose [name] reads and then receiving the response to the
    request it sent writes the console lines in this order: ['location: ']
    with the candidate, what the Transport logs while settling (nothing,
    for [weather.js]), then ['got forecase: '] with the body; the body
    becomes the forecast, and the request leaves the in-flight list. *)
Theorem select_trace s t1 t2 i xs loc name d :
  wf s -> guard s t1 = true -> (t1 <= t2)%Z -> allows t2 (search_timer s) = true ->
  pressable weatherImages dayName s = Some xs -> xs !! i = Some loc ->
  get loc (nm "name") = Ok name ->
  exists s1 s2,
    step weatherImages dayName s t1 (PressLocation i) = Some s1 /\
    step weatherImages dayName s1 t2 (Settle (next_rid s) (Resolved (response_with d))) = Some s2 /\
    logs s2 = logs s ++ [LogLine (lit "location: ") (ThrownValue loc)] ++
                snd (api_settle (Resolved (response_with d))) ++
                [LogLine (lit "got forecase: ") (ThrownValue d)] /\
    weather (ui_of s2) = d /\ inflight_reqs s2 = inflight_reqs s.
Proof.
  intros Hwf Hg Ht Ha Hp Hi Hn.
  pose proof (step_PressLocation weatherImages dayName s t1 i xs loc Hg Hp Hi) as H1.
  unfold handleLocation in H1. rewrite Hn in H1.
  eexists. eexists. split; [exact H1|].
  split.
  - apply (step_Settle weatherImages dayName _ _ _ _ (inflight_reqs s)
             (mk_inflight (next_rid s) (api_forecast (mk_params name seven)) KSelect) []).
    + unfold guard. cbn. rewrite bool_decide_true by lia. exact Ha.
    + reflexivity.
    + reflexivity.
    + apply Forall_forall. intros g Hgin. apply list_elem_of_In in Hgin.
      pose proof (wf_rid_lt s g Hwf Hgin). lia.
  - rewrite resume_inflight, api_settle_body. cbn. rewrite <-!app_assoc, app_nil_r. auto.
Qed.
End Trace.

Lemma select_trace_witness :
  exists s1 s2,
    step (api:=demo_api) demo_images demo_dayName demo_state 1400 (PressLocation 0) = Some s1 /\
    step (api:=demo_api) demo_images demo_dayName s1 1500
      (Settle (next_rid demo_state) (Resolved (response_with fixture_forecast))) = Some s2 /\
    weather (ui_of s2) = fixture_forecast.
Proof.
  destruct (select_trace (api:=demo_api) demo_images demo_dayName demo_state 1400 1500 0 [london]
              london (JStr (lit "London")) fixture_forecast)
    as (s1 & s2 & H1 & H2 & _ & H4 & _);
    [| vm_compute; reflexivity | lia | vm_compute; reflexivity | vm_compute; reflexivity
     | reflexivity | reflexivity |].
  - apply demo_state_wf.
  - exists s1, s2. auto.
Defined.
